(** * kubectl-head: the paginated listing engine of [pkg/head/head.go]

    A shallow embedding of [HeadOptions.Validate], [HeadOptions.GetResourceGVR],
    [NewRestClient] and [HeadOptions.Run], together with the properties the
    specification states about them.

    Go strings are byte sequences: they are modelled by [string] (a list of
    [ascii], i.e. of bytes).  [int64] values are modelled by [Z]; the code does
    no arithmetic on them, it only compares [Limit] with zero.  Pointers that
    the code dereferences are [option]s, and a nil dereference is the outcome
    [Panic]. *)

From Stdlib Require Import String Ascii List ZArith Bool Lia.
Import ListNotations.
Local Open Scope string_scope.
Local Open Scope list_scope.

(** ** Go library functions used by the package *)

Module strings.

(** [c < utf8.RuneSelf] *)
Definition isASCIIByte (c : ascii) : bool := (nat_of_ascii c <? 128)%nat.

Definition isUpperByte (c : ascii) : bool :=
  ((65 <=? nat_of_ascii c) && (nat_of_ascii c <=? 90))%nat.

(** [c += 'a' - 'A'] on the upper-case ASCII letters *)
Definition lowerByte (c : ascii) : ascii :=
  if isUpperByte c then ascii_of_nat (nat_of_ascii c + 32) else c.

Fixpoint isASCII (s : string) : bool :=
  match s with
  | EmptyString => true
  | String c s' => isASCIIByte c && isASCII s'
  end.

Fixpoint mapBytes (f : ascii -> ascii) (s : string) : string :=
  match s with
  | EmptyString => EmptyString
  | String c s' => String (f c) (mapBytes f s')
  end.

(** [strings.ToLower]: ASCII-only strings are lowered byte by byte; any
    other string goes through [strings.Map(unicode.ToLower, s)], whose
    Unicode tables are outside the package and are the parameter
    [mapUnicodeLower]. *)
Definition ToLower (mapUnicodeLower : string -> string) (s : string) : string :=
  if isASCII s then mapBytes lowerByte s else mapUnicodeLower s.

(** [strings.Count(s, sep)] for a one-byte separator *)
Fixpoint Count (s : string) (sep : ascii) : nat :=
  match s with
  | EmptyString => 0
  | String c s' => if (c =? sep)%char then S (Count s' sep) else Count s' sep
  end.

(** [strings.Split(s, sep)] for a one-byte separator: the substrings
    between the occurrences of [sep], in order. *)
Fixpoint Split (s : string) (sep : ascii) : list string :=
  match s with
  | EmptyString => [EmptyString]
  | String c s' =>
      if (c =? sep)%char then EmptyString :: Split s' sep
      else match Split s' sep with
           | p :: ps => String c p :: ps
           | [] => [String c EmptyString]
           end
  end.

End strings.

(** ** Data model *)

(** A Go [error] value.  [Errorf format args] is [fmt.Errorf(format, args...)],
    kept unformatted; [External msg] is an error produced by a collaborator
    (mapper, transport, printer, input stream). *)
Inductive error : Type :=
| Errorf (format : string) (args : list string)
| External (msg : string).

(** [schema.GroupVersion] *)
Record GroupVersion : Type := mkGV {
  gvGroup : string;
  gvVersion : string
}.

(** [schema.GroupVersionResource] *)
Record GroupVersionResource : Type := mkGVR {
  Group : string;
  Version : string;
  Resource : string
}.

(** The zero value [schema.GroupVersionResource{}] *)
Definition emptyGVR : GroupVersionResource := mkGVR "" "" "".

(** [gvr.GroupVersion()] *)
Definition GroupVersionOf (gvr : GroupVersionResource) : GroupVersion :=
  mkGV (Group gvr) (Version gvr).

(** [meta.RESTMapper], of which the package calls [ResourceFor] only. *)
Record RESTMapper : Type := mkMapper {
  ResourceFor : GroupVersionResource -> error + GroupVersionResource
}.

(** [genericclioptions.PrintFlags]: [OutputFormat] is a [*string]. *)
Record PrintFlagsT : Type := mkPrintFlags {
  OutputFormat : option string
}.

(** The serializer picked by [scheme.Codecs.WithoutConversion()]. *)
Inductive serializer : Type := CodecsWithoutConversion.

(** [rest.Config], with the fields the package writes; [Host] stands for the
    rest of the base configuration, which the package leaves alone. *)
Record Config : Type := mkConfig {
  Host : string;
  cfgGroupVersion : option GroupVersion;
  APIPath : string;
  AcceptContentTypes : string;
  NegotiatedSerializer : option serializer
}.

(** The client [rest.RESTClientFor] builds: it keeps the configuration it
    was built from. *)
Record RESTClient : Type := mkClient {
  clientConfig : Config
}.

(** [metav1.ListOptions], with the fields the package sets *)
Record ListOptions : Type := mkListOptions {
  loLimit : Z;
  loContinue : string;
  loLabelSelector : string
}.

(** [metav1.Table] *)
Record Table : Type := mkTable {
  ColumnDefinitions : list string;
  Rows : list (list string);
  Continue : string
}.

(** [genericclioptions.ConfigFlags], by what its three loaders return:
    [ToRESTMapper()], [ToRawKubeConfigLoader().Namespace()] and
    [ToRESTConfig()]. *)
Record ConfigFlagsT : Type := mkConfigFlags {
  ToRESTMapper : option RESTMapper * option error;
  RawNamespace : string * option error;
  ToRESTConfig : option Config * option error
}.

(** [dynamic.Interface], by the configuration it was built from. *)
Record DynamicClientT : Type := mkDynamic {
  dynConfig : Config
}.

(** [HeadOptions].  The output and input streams of [IOStreams] are not
    fields here: what is written to them is recorded in the trace of the
    machine state below. *)
Record HeadOptions : Type := mkHeadOptions {
  ConfigFlags : option ConfigFlagsT;
  PrintFlags : option PrintFlagsT;
  oResource : string;
  Limit : Z;
  ContinueToken : string;
  Interactive : bool;
  Selector : string;
  AllNamespaces : bool;
  Namespace : string;
  DynamicClient : option DynamicClientT;
  Mapper : option RESTMapper;
  RESTConfig : option Config
}.

Definition setResource (v : string) (o : HeadOptions) : HeadOptions :=
  mkHeadOptions (ConfigFlags o) (PrintFlags o) v (Limit o) (ContinueToken o)
    (Interactive o) (Selector o) (AllNamespaces o) (Namespace o)
    (DynamicClient o) (Mapper o) (RESTConfig o).

Definition setNamespace (v : string) (o : HeadOptions) : HeadOptions :=
  mkHeadOptions (ConfigFlags o) (PrintFlags o) (oResource o) (Limit o)
    (ContinueToken o) (Interactive o) (Selector o) (AllNamespaces o) v
    (DynamicClient o) (Mapper o) (RESTConfig o).

Definition setDynamicClient (v : option DynamicClientT) (o : HeadOptions)
  : HeadOptions :=
  mkHeadOptions (ConfigFlags o) (PrintFlags o) (oResource o) (Limit o)
    (ContinueToken o) (Interactive o) (Selector o) (AllNamespaces o)
    (Namespace o) v (Mapper o) (RESTConfig o).

Definition setMapper (v : option RESTMapper) (o : HeadOptions) : HeadOptions :=
  mkHeadOptions (ConfigFlags o) (PrintFlags o) (oResource o) (Limit o)
    (ContinueToken o) (Interactive o) (Selector o) (AllNamespaces o)
    (Namespace o) (DynamicClient o) v (RESTConfig o).

Definition setRESTConfig (v : option Config) (o : HeadOptions) : HeadOptions :=
  mkHeadOptions (ConfigFlags o) (PrintFlags o) (oResource o) (Limit o)
    (ContinueToken o) (Interactive o) (Selector o) (AllNamespaces o)
    (Namespace o) (DynamicClient o) (Mapper o) v.

(** What a call does: it returns a value, or panics on a nil dereference,
    or (for the loop of [Run], which need not terminate) is cut off. *)
Inductive outcome (A : Type) : Type :=
| Returns (a : A)
| Panic
| OutOfFuel.
Arguments Returns {A} a.
Arguments Panic {A}.
Arguments OutOfFuel {A}.

(** ** Validate *)

(** [*o.PrintFlags.OutputFormat] *)
Definition derefOutputFormat (o : HeadOptions) : option string :=
  match PrintFlags o with
  | Some pf => OutputFormat pf
  | None => None
  end.

Definition ErrLimit : error := Errorf "--limit must be a positive number" [].
Definition ErrInteractiveContinue : error :=
  Errorf "cannot use --interactive and --continue flags together" [].
Definition ErrInteractiveOutput : error :=
  Errorf "interactive mode is only supported for standard and wide table output" [].

(** [HeadOptions.Validate]; [Returns None] is the nil error.  The output
    format is read only when [o.Interactive] holds ([&&] short-circuits). *)
Definition Validate (o : HeadOptions) : outcome (option error) :=
  if (Limit o <=? 0)%Z then Returns (Some ErrLimit)
  else if Interactive o && negb (ContinueToken o =? "") then
    Returns (Some ErrInteractiveContinue)
  else if Interactive o then
    match derefOutputFormat o with
    | None => Panic
    | Some fmt =>
        if negb (fmt =? "") && negb (fmt =? "wide")
        then Returns (Some ErrInteractiveOutput)
        else Returns None
    end
  else Returns None.

(** ** GetResourceGVR *)

Definition dot : ascii := "."%char.

Section Resolver.

(** [strings.Map(unicode.ToLower, _)], see [strings.ToLower]. *)
Variable mapUnicodeLower : string -> string.

(** [resourceArg := strings.ToLower(o.Resource)] *)
Definition resourceArg (o : HeadOptions) : string :=
  strings.ToLower mapUnicodeLower (oResource o).

(** The partial identifier handed to the mapper. *)
Definition gvrToFind (o : HeadOptions) : GroupVersionResource :=
  match strings.Split (resourceArg o) dot with
  | [p0; p1] => mkGVR p1 "" p0
  | _ => mkGVR "" "" (resourceArg o)
  end.

Definition ErrNoResourceType (o : HeadOptions) : error :=
  Errorf "the server doesn't have a resource type %q" [oResource o].

(** [HeadOptions.GetResourceGVR] *)
Definition GetResourceGVR (o : HeadOptions)
  : outcome (GroupVersionResource * option error) :=
  match Mapper o with
  | None => Panic
  | Some m =>
      match ResourceFor m (gvrToFind o) with
      | inl _ => Returns (emptyGVR, Some (ErrNoResourceType o))
      | inr gvr => Returns (gvr, None)
      end
  end.

End Resolver.

(** ** NewRestClient *)

Definition TableAccept : string :=
  "application/json;as=Table;v=v1;g=meta.k8s.io,application/json".

(** The configuration [NewRestClient] hands to [rest.RESTClientFor]: the
    by-value copy of [config] after the four assignments. *)
Definition tableConfig (config : Config) (gv : GroupVersion) : Config :=
  let config := mkConfig (Host config) (Some gv) (APIPath config)
                  (AcceptContentTypes config) (NegotiatedSerializer config) in
  let config := mkConfig (Host config) (cfgGroupVersion config) "/apis"
                  (AcceptContentTypes config) (NegotiatedSerializer config) in
  let config :=
    if gvGroup gv =? "" then
      mkConfig (Host config) (cfgGroupVersion config) "/api"
        (AcceptContentTypes config) (NegotiatedSerializer config)
    else config in
  let config := mkConfig (Host config) (cfgGroupVersion config) (APIPath config)
                  TableAccept (NegotiatedSerializer config) in
  mkConfig (Host config) (cfgGroupVersion config) (APIPath config)
    (AcceptContentTypes config) (Some CodecsWithoutConversion).

(** ** The environment and the machine state *)

(** What [Run] does to the outside, in order. *)
Inductive event : Type :=
| EvGet (c : RESTClient) (ns resource : string) (lo : ListOptions)
    (** one list round trip: [restClient.Get()...Do(ctx).Into(table)] *)
| EvPrintObj (t : Table)
    (** the table printer writing the page to [o.Out] *)
| EvOut (s : string)
    (** [fmt.Fprintln] / [fmt.Fprintf] on [o.Out] *)
| EvReadRune
    (** [ReadRune] on a fresh [bufio] reader over [os.Stdin] *)
| EvStdout (s : string).
    (** [fmt.Println] on [os.Stdout] *)

(** The collaborators.  Each answer may depend on everything that happened
    before it (the trace), so a server with state, a sink that breaks at
    some point and any input stream are all instances. *)
Record World : Type := mkWorld {
  clientError : Config -> option error;
    (** [rest.RESTClientFor] rejecting a configuration *)
  dynamicError : Config -> option error;
    (** [dynamic.NewForConfig] rejecting a configuration *)
  roundTrip : list event -> RESTClient -> string -> string -> ListOptions
              -> error + Table;
  printError : list event -> Table -> option error;
    (** [printer.PrintObj] failing *)
  stdinRune : list event -> error + Z
    (** the rune [ReadRune] yields, or its error *)
}.

(** The receiver [o *HeadOptions] lives in the store, so that a method can
    assign to its fields; [trace] is what has happened so far. *)
Record state : Type := mkState {
  heapO : HeadOptions;
  trace : list event
}.

(** Computations on the store that may panic or be cut off. *)
Definition M (A : Type) : Type := state -> outcome A * state.

Definition ret {A} (a : A) : M A := fun st => (Returns a, st).

Definition bind {A B} (m : M A) (k : A -> M B) : M B :=
  fun st =>
    match m st with
    | (Returns a, st') => k a st'
    | (Panic, st') => (Panic, st')
    | (OutOfFuel, st') => (OutOfFuel, st')
    end.

Declare Scope go_scope.
Delimit Scope go_scope with go.
Notation "x <- m ;; k" := (bind m (fun x => k))
  (at level 61, m at next level, right associativity) : go_scope.
Notation "m ;;; k" := (bind m (fun _ => k))
  (at level 61, right associativity) : go_scope.
Local Open Scope go_scope.

(** [o.f] *)
Definition field {A} (f : HeadOptions -> A) : M A :=
  fun st => (Returns (f (heapO st)), st).

(** [o.f = v], through an update function of the record *)
Definition assign (upd : HeadOptions -> HeadOptions) : M unit :=
  fun st => (Returns tt, mkState (upd (heapO st)) (trace st)).

(** A method of [o] that only reads its receiver. *)
Definition call {A} (f : HeadOptions -> outcome A) : M A :=
  fun st => (f (heapO st), st).

Definition panic {A} : M A := fun st => (Panic, st).
Definition outOfFuel {A} : M A := fun st => (OutOfFuel, st).

Definition emit (e : event) : M unit :=
  fun st => (Returns tt, mkState (heapO st) (trace st ++ [e])).

Definition nl : string := String (ascii_of_nat 10) EmptyString.

Definition NoResourcesLine : string := "No resources found." ++ nl.
Definition EndOfListLine : string := nl ++ "--- End of list ---" ++ nl.
Definition Prompt : string := nl ++ "--- [n] next page, [q] quit: ".
Definition ContinueTokenLine (continueToken : string) : string :=
  nl ++ "Continue Token: " ++ continueToken ++ nl.

Section Engine.

Variable mapUnicodeLower : string -> string.
Variable w : World.

(** [HeadOptions.Complete]: the one method that assigns to its receiver.
    A multiple assignment [o.f, err = g()] stores the first result before
    [err] is looked at. *)
Definition Complete (resource : string) : M (option error) :=
  assign (setResource resource) ;;;
  flags <- field ConfigFlags ;;
  match flags with
  | None => panic
  | Some cf =>
      assign (setMapper (fst (ToRESTMapper cf))) ;;;
      match snd (ToRESTMapper cf) with
      | Some err => ret (Some err)
      | None =>
          assign (setNamespace (fst (RawNamespace cf))) ;;;
          match snd (RawNamespace cf) with
          | Some err => ret (Some err)
          | None =>
              assign (setRESTConfig (fst (ToRESTConfig cf))) ;;;
              match snd (ToRESTConfig cf) with
              | Some err => ret (Some err)
              | None =>
                  restConfig <- field RESTConfig ;;
                  match restConfig with
                  | None => panic
                  | Some config =>
                      match dynamicError w config with
                      | Some err =>
                          assign (setDynamicClient None) ;;;
                          ret (Some err)
                      | None =>
                          assign (setDynamicClient (Some (mkDynamic config))) ;;;
                          ret None
                      end
                  end
              end
          end
      end
  end.

(** [rest.RESTClientFor(&config)] *)
Definition RESTClientFor (config : Config) : error + RESTClient :=
  match clientError w config with
  | Some err => inl err
  | None => inr (mkClient config)
  end.

(** [NewRestClient] *)
Definition NewRestClient (config : Config) (gv : GroupVersion)
  : error + RESTClient :=
  RESTClientFor (tableConfig config gv).

(** [restClient.Get().Namespace(ns).Resource(r).VersionedParams(lo).Do(ctx).Into(table)] *)
Definition Do (c : RESTClient) (ns resource : string) (lo : ListOptions)
  : M (error + Table) :=
  fun st =>
    (Returns (roundTrip w (trace st) c ns resource lo),
     mkState (heapO st) (trace st ++ [EvGet c ns resource lo])).

(** [printers.NewTablePrinter(printers.PrintOptions{}).PrintObj(table, o.Out)] *)
Definition PrintObj (t : Table) : M (option error) :=
  fun st =>
    (Returns (printError w (trace st) t),
     mkState (heapO st) (trace st ++ [EvPrintObj t])).

(** [bufio.NewReader(os.Stdin).ReadRune()] *)
Definition ReadRune : M (error + Z) :=
  fun st =>
    (Returns (stdinRune w (trace st)),
     mkState (heapO st) (trace st ++ [EvReadRune])).

(** The [for] loop of [Run], lines 124-182: [fuel] bounds the number of
    iterations. *)
Fixpoint loop (fuel : nat) (ns : string) (gvr : GroupVersionResource)
    (restClient : RESTClient) (continueToken : string)
    (isFirstRequest : bool) {struct fuel} : M (option error) :=
  match fuel with
  | O => outOfFuel
  | S fuel' =>
      limit <- field Limit ;;
      selector <- field Selector ;;
      let listOptions := mkListOptions limit continueToken selector in
      r <- Do restClient ns (Resource gvr) listOptions ;;
      match r with
      | inl err => ret (Some err)
      | inr table =>
          if isFirstRequest && (length (Rows table) =? 0)%nat then
            emit (EvOut NoResourcesLine) ;;;
            ret None
          else
            perr <- PrintObj table ;;
            match perr with
            | Some err => ret (Some err)
            | None =>
                let isFirstRequest := false in
                let continueToken := Continue table in
                if continueToken =? "" then
                  interactive <- field Interactive ;;
                  (if interactive : bool then emit (EvOut EndOfListLine)
                   else ret tt) ;;;
                  ret None
                else
                  interactive <- field Interactive ;;
                  if interactive : bool then
                    emit (EvOut Prompt) ;;;
                    rr <- ReadRune ;;
                    match rr with
                    | inl err => ret (Some err)
                    | inr char =>
                        emit (EvStdout nl) ;;;
                        if negb (char =? 110)%Z then ret None
                        else loop fuel' ns gvr restClient continueToken
                               isFirstRequest
                    end
                  else
                    emit (EvOut (ContinueTokenLine continueToken)) ;;;
                    ret None
            end
      end
  end.

(** [HeadOptions.Run] *)
Definition Run (fuel : nat) : M (option error) :=
  res <- call (GetResourceGVR mapUnicodeLower) ;;
  let '(gvr, err) := res in
  match err with
  | Some e => ret (Some e)
  | None =>
      namespace <- field Namespace ;;
      allNamespaces <- field AllNamespaces ;;
      let ns := if allNamespaces : bool then "" else namespace in
      restConfig <- field RESTConfig ;;
      match restConfig with
      | None => panic
      | Some config =>
          match NewRestClient config (GroupVersionOf gvr) with
          | inl e => ret (Some e)
          | inr restClient =>
              continueToken <- field ContinueToken ;;
              loop fuel ns gvr restClient continueToken true
          end
      end
  end.

End Engine.

(** ** Vocabulary of the statements *)

(** The state [st] after the events [evs]. *)
Definition after (st : state) (evs : list event) : state :=
  mkState (heapO st) (trace st ++ evs).

(** The namespace [Run] queries: [ns]. *)
Definition queriedNamespace (o : HeadOptions) : string :=
  if AllNamespaces o then "" else Namespace o.

(** The list options of a request of the session of [o] that carries
    [continueToken]. *)
Definition listOptionsOf (o : HeadOptions) (continueToken : string)
  : ListOptions :=
  mkListOptions (Limit o) continueToken (Selector o).

(** The request of the session of [o] that carries [continueToken]. *)
Definition getEvent (c : RESTClient) (ns : string) (gvr : GroupVersionResource)
    (o : HeadOptions) (continueToken : string) : event :=
  EvGet c ns (Resource gvr) (listOptionsOf o continueToken).

(** The page [table] is not cut short by the first-page check. *)
Definition rendered (isFirstRequest : bool) (table : Table) : Prop :=
  isFirstRequest && (length (Rows table) =? 0)%nat = false.

(** An event of the session of [o] on client [c], namespace [ns] and
    resource [gvr]: its requests carry the session's limit and selector. *)
Definition sessionEvent (o : HeadOptions) (c : RESTClient) (ns : string)
    (gvr : GroupVersionResource) (e : event) : Prop :=
  match e with
  | EvGet c' ns' resource lo =>
      c' = c /\ ns' = ns /\ resource = Resource gvr /\
      loLimit lo = Limit o /\ loLabelSelector lo = Selector o
  | _ => True
  end.

(** The session of [o] is set up: the mapper resolved the resource to [gvr]
    and the transport client [client] was built. *)
Definition ready (mapUnicodeLower : string -> string) (w : World)
    (o : HeadOptions) (gvr : GroupVersionResource) (client : RESTClient)
  : Prop :=
  GetResourceGVR mapUnicodeLower o = Returns (gvr, None) /\
  exists config, RESTConfig o = Some config /\
                 NewRestClient w config (GroupVersionOf gvr) = inr client.

(** The output format is one that interactive mode refuses. *)
Definition formatUnsupported (o : HeadOptions) : Prop :=
  exists fmt, derefOutputFormat o = Some fmt /\ fmt <> "" /\ fmt <> "wide".

Definition comma : ascii := ","%char.

(** C2 as the specification words it: a failed read ends the run with no
    error. *)
Definition read_failure_ends_without_error : Prop :=
  forall (w : World) (fuel : nat) (ns : string) (gvr : GroupVersionResource)
         (c : RESTClient) (tok : string) (first : bool) (st : state)
         (table : Table) (err : error),
    let get := getEvent c ns gvr (heapO st) tok in
    roundTrip w (trace st) c ns (Resource gvr) (listOptionsOf (heapO st) tok)
      = inr table ->
    rendered first table ->
    printError w (trace st ++ [get]) table = None ->
    Continue table <> "" ->
    Interactive (heapO st) = true ->
    stdinRune w (trace st ++ [get; EvPrintObj table; EvOut Prompt]) = inl err ->
    fst (loop w (S fuel) ns gvr c tok first st) = Returns None.

(** ** Fixtures: the fakes of the package's tests *)

(** [io.EOF] *)
Definition EOF : error := External "EOF".

(** [fakeRESTMapperImpl.ResourceFor] of [head_test.go] *)
Definition fakeRESTMapperImpl (gvr : GroupVersionResource) (err : option error)
  : RESTMapper :=
  mkMapper (fun input =>
    match err with
    | Some e => inl e
    | None =>
        if negb (Group input =? "") && negb (Group input =? Group gvr)
        then inl (External "group does not match")
        else inr gvr
    end).

Definition podsGVR : GroupVersionResource := mkGVR "" "v1" "pods".

(** [fakeRESTMapper()] *)
Definition fakeRESTMapper : RESTMapper := fakeRESTMapperImpl podsGVR None.

Definition isReadRune (e : event) : bool :=
  match e with EvReadRune => true | _ => false end.

(** An input stream that yields the runes of [script], one per read, and
    then [io.EOF]. *)
Definition scriptedStdin (script : list (error + Z)) (tr : list event)
  : error + Z :=
  nth (length (filter isReadRune tr)) script (inl EOF).

(** A server that answers a request by the page stored under the request's
    continuation token. *)
Fixpoint pageFor (pages : list (string * Table)) (token : string)
  : error + Table :=
  match pages with
  | [] => inl (External "410 Gone")
  | (t, page) :: rest => if t =? token then inr page else pageFor rest token
  end.

Definition fakeWorld (pages : list (string * Table))
    (script : list (error + Z)) : World :=
  mkWorld (fun _ => None) (fun _ => None)
    (fun _ _ _ _ lo => pageFor pages (loContinue lo))
    (fun _ _ => None)
    (scriptedStdin script).

Definition podColumns : list string := ["Name"; "Age"].

(** [rest.Config{}] *)
Definition baseConfig : Config := mkConfig "" None "" "" None.

(** The client [NewRestClient] builds for the core group. *)
Definition podsClient : RESTClient :=
  mkClient (tableConfig baseConfig (GroupVersionOf podsGVR)).

(** The fixtures are ASCII, so the Unicode path of [strings.ToLower] is
    never taken on them. *)
Definition noUnicode (s : string) : string := s.

Definition page1 : Table := mkTable podColumns [["pod-a"; "10d"]] "tok1".
Definition page2 : Table := mkTable podColumns [] "tok2".
Definition page3 : Table := mkTable podColumns [["pod-c"; "1d"]] "".

(** A page of one pod, an empty page and a last page of one pod: the first
    continues with [tok1], the second with [tok2]. *)
Definition threePages : list (string * Table) :=
  [ ("", page1); ("tok1", page2); ("tok2", page3) ].


(** Options as [TestRun] builds them, in the namespace [default]. *)
Definition testOptions (limit : Z) (token : string) (interactive : bool)
  : HeadOptions :=
  mkHeadOptions None (Some (mkPrintFlags (Some ""))) "pods" limit token
    interactive "" false "default" None (Some fakeRESTMapper)
    (Some baseConfig).

(** The options literals of [TestValidate]: fields that a literal leaves out
    are nil or zero. *)
Definition validateCase (printFlags : option PrintFlagsT) (limit : Z)
    (token : string) (interactive : bool) : HeadOptions :=
  mkHeadOptions None printFlags "" limit token interactive "" false "" None
    None None.

(** The options of [TestGetResourceGVR]. *)
Definition resolveCase (resource : string) (mapper : RESTMapper)
  : HeadOptions :=
  mkHeadOptions None (Some (mkPrintFlags (Some ""))) resource 0 "" false ""
    false "" None (Some mapper) None.

Definition deploymentsGVR : GroupVersionResource :=
  mkGVR "apps" "v1" "deployments".

Definition initialState (o : HeadOptions) : state := mkState o [].

(** The first request of the session of [testOptions]. *)
Definition get1 (o : HeadOptions) : event :=
  getEvent podsClient "default" podsGVR o (ContinueToken o).

(** ** The command: [NewHeadOptions] and the [RunE] of [NewCmdHead] *)

(** [NewHeadOptions]: the config flags and the print flags are allocated,
    [NewPrintFlags("")] pointing [OutputFormat] at the empty string; all the
    other fields are zero.  [configFlags] is what
    [genericclioptions.NewConfigFlags(true)] loads in the environment at
    hand. *)
Definition NewHeadOptions (configFlags : ConfigFlagsT) : HeadOptions :=
  mkHeadOptions (Some configFlags) (Some (mkPrintFlags (Some ""))) "" 0 ""
    false "" false "" None None None.

Definition ErrNoArgument : error :=
  Errorf "you must specify the type of resource to head" [].
Definition ErrTooManyArguments : error :=
  Errorf "only one resource type is allowed" [].

Section Command.

Variable mapUnicodeLower : string -> string.
Variable w : World.

(** The [RunE] closure of [NewCmdHead] on the options [o] of the store:
    the argument count, then [Complete], [Validate] and [Run]. *)
Definition RunE (fuel : nat) (args : list string) : M (option error) :=
  if (length args =? 0)%nat then ret (Some ErrNoArgument)
  else if (1 <? length args)%nat then ret (Some ErrTooManyArguments)
  else
    err <- Complete w (nth 0 args "") ;;
    match err with
    | Some e => ret (Some e)
    | None =>
        err <- call Validate ;;
        match err with
        | Some e => ret (Some e)
        | None =>
            err <- Run mapUnicodeLower w fuel ;;
            match err with
            | Some e => ret (Some e)
            | None => ret None
            end
        end
    end.

End Command.

(** ** Reading a trace *)

(** The list options of the requests of a trace, in order. *)
Fixpoint requestsOf (evs : list event) : list ListOptions :=
  match evs with
  | [] => []
  | EvGet _ _ _ lo :: rest => lo :: requestsOf rest
  | _ :: rest => requestsOf rest
  end.

(** The clients the requests of a trace were made with, in order. *)
Fixpoint clientsOf (evs : list event) : list RESTClient :=
  match evs with
  | [] => []
  | EvGet c _ _ _ :: rest => c :: clientsOf rest
  | _ :: rest => clientsOf rest
  end.

(** The pages handed to the printer, in order. *)
Fixpoint printedOf (evs : list event) : list Table :=
  match evs with
  | [] => []
  | EvPrintObj t :: rest => t :: printedOf rest
  | _ :: rest => printedOf rest
  end.

(** The number of reads of the input stream. *)
Definition readsOf (evs : list event) : nat :=
  length (filter isReadRune evs).

(** Every request of [evs] carries the token of the page printed last
    before it, and [expect] when no page was printed before it. *)
Fixpoint chained (expect : string) (evs : list event) : Prop :=
  match evs with
  | [] => True
  | EvGet _ _ _ lo :: rest => loContinue lo = expect /\ chained expect rest
  | EvPrintObj t :: rest => chained (Continue t) rest
  | _ :: rest => chained expect rest
  end.

(** Nothing in [evs] touches the terminal: no prompt, no read, no newline
    on the standard output. *)
Definition silent (evs : list event) : Prop :=
  forall e, In e evs ->
    e <> EvReadRune /\ e <> EvOut Prompt /\ forall s, e <> EvStdout s.

(** ** The loop as a relation *)

Section Runs.

Variable w : World.
Variables (ns : string) (gvr : GroupVersionResource) (c : RESTClient).
Variable o : HeadOptions.

(** [runs tr tok first evs r]: from the trace [tr], the loop entered with
    [continueToken = tok] and [isFirstRequest = first] adds the events [evs]
    and ends in [r].  One rule per way through the loop body; [runs_cut] is
    the loop being cut off. *)
Inductive runs : list event -> string -> bool -> list event
                 -> outcome (option error) -> Prop :=
| runs_cut tr tok first :
    runs tr tok first [] OutOfFuel
| runs_fetch_error tr tok first err :
    roundTrip w tr c ns (Resource gvr) (listOptionsOf o tok) = inl err ->
    runs tr tok first [getEvent c ns gvr o tok] (Returns (Some err))
| runs_no_resources tr tok table :
    roundTrip w tr c ns (Resource gvr) (listOptionsOf o tok) = inr table ->
    Rows table = [] ->
    runs tr tok true [getEvent c ns gvr o tok; EvOut NoResourcesLine]
      (Returns None)
| runs_print_error tr tok first table err :
    roundTrip w tr c ns (Resource gvr) (listOptionsOf o tok) = inr table ->
    rendered first table ->
    printError w (tr ++ [getEvent c ns gvr o tok]) table = Some err ->
    runs tr tok first [getEvent c ns gvr o tok; EvPrintObj table]
      (Returns (Some err))
| runs_last_page tr tok first table :
    roundTrip w tr c ns (Resource gvr) (listOptionsOf o tok) = inr table ->
    rendered first table ->
    printError w (tr ++ [getEvent c ns gvr o tok]) table = None ->
    Continue table = "" ->
    runs tr tok first
      ([getEvent c ns gvr o tok; EvPrintObj table] ++
       if Interactive o then [EvOut EndOfListLine] else [])
      (Returns None)
| runs_token tr tok first table :
    roundTrip w tr c ns (Resource gvr) (listOptionsOf o tok) = inr table ->
    rendered first table ->
    printError w (tr ++ [getEvent c ns gvr o tok]) table = None ->
    Continue table <> "" ->
    Interactive o = false ->
    runs tr tok first
      [getEvent c ns gvr o tok; EvPrintObj table;
       EvOut (ContinueTokenLine (Continue table))]
      (Returns None)
| runs_read_error tr tok first table err :
    roundTrip w tr c ns (Resource gvr) (listOptionsOf o tok) = inr table ->
    rendered first table ->
    printError w (tr ++ [getEvent c ns gvr o tok]) table = None ->
    Continue table <> "" ->
    Interactive o = true ->
    stdinRune w (tr ++ [getEvent c ns gvr o tok; EvPrintObj table;
                        EvOut Prompt]) = inl err ->
    runs tr tok first
      [getEvent c ns gvr o tok; EvPrintObj table; EvOut Prompt; EvReadRune]
      (Returns (Some err))
| runs_quit tr tok first table char :
    roundTrip w tr c ns (Resource gvr) (listOptionsOf o tok) = inr table ->
    rendered first table ->
    printError w (tr ++ [getEvent c ns gvr o tok]) table = None ->
    Continue table <> "" ->
    Interactive o = true ->
    stdinRune w (tr ++ [getEvent c ns gvr o tok; EvPrintObj table;
                        EvOut Prompt]) = inr char ->
    char <> 110%Z ->
    runs tr tok first
      [getEvent c ns gvr o tok; EvPrintObj table; EvOut Prompt; EvReadRune;
       EvStdout nl]
      (Returns None)
| runs_next tr tok first table evs r :
    roundTrip w tr c ns (Resource gvr) (listOptionsOf o tok) = inr table ->
    rendered first table ->
    printError w (tr ++ [getEvent c ns gvr o tok]) table = None ->
    Continue table <> "" ->
    Interactive o = true ->
    stdinRune w (tr ++ [getEvent c ns gvr o tok; EvPrintObj table;
                        EvOut Prompt]) = inr 110%Z ->
    runs (tr ++ [getEvent c ns gvr o tok; EvPrintObj table; EvOut Prompt;
                 EvReadRune; EvStdout nl])
         (Continue table) false evs r ->
    runs tr tok first
      ([getEvent c ns gvr o tok; EvPrintObj table; EvOut Prompt; EvReadRune;
        EvStdout nl] ++ evs)
      r.

End Runs.

(** ** What [Run] reads of its receiver *)

(** [o] and [o'] agree on every field that [Run] reads. *)
Definition sameForRun (o o' : HeadOptions) : Prop :=
  oResource o = oResource o' /\ Mapper o = Mapper o' /\
  RESTConfig o = RESTConfig o' /\ ContinueToken o = ContinueToken o' /\
  Limit o = Limit o' /\ Selector o = Selector o' /\
  Interactive o = Interactive o' /\
  queriedNamespace o = queriedNamespace o'.

(** [o.PrintFlags = v] *)
Definition setPrintFlags (v : option PrintFlagsT) (o : HeadOptions)
  : HeadOptions :=
  mkHeadOptions (ConfigFlags o) v (oResource o) (Limit o) (ContinueToken o)
    (Interactive o) (Selector o) (AllNamespaces o) (Namespace o)
    (DynamicClient o) (Mapper o) (RESTConfig o).

(** The loaders of [cf] give a mapper and a configuration whenever they
    give no error. *)
Definition loadersBehave (cf : ConfigFlagsT) : Prop :=
  (snd (ToRESTMapper cf) = None -> fst (ToRESTMapper cf) <> None) /\
  (snd (ToRESTConfig cf) = None -> fst (ToRESTConfig cf) <> None).

(** A configuration set with loaders that all succeed. *)
Definition fakeConfigFlags : ConfigFlagsT :=
  mkConfigFlags (Some fakeRESTMapper, None) ("default", None)
    (Some baseConfig, None).

(** A configuration set whose kubeconfig cannot be read, as in
    [TestCompleteError]. *)
Definition brokenConfigFlags : ConfigFlagsT :=
  mkConfigFlags (None, Some (External "non-existent-kubeconfig-for-test"))
    ("", Some (External "non-existent-kubeconfig-for-test"))
    (None, Some (External "non-existent-kubeconfig-for-test")).

(** [o.AllNamespaces = v] *)
Definition setAllNamespaces (v : bool) (o : HeadOptions) : HeadOptions :=
  mkHeadOptions (ConfigFlags o) (PrintFlags o) (oResource o) (Limit o)
    (ContinueToken o) (Interactive o) (Selector o) v (Namespace o)
    (DynamicClient o) (Mapper o) (RESTConfig o).

(** The options of [NewHeadOptions] with [--limit], [--continue] and [-i]
    parsed into them. *)
Definition headOptions (limit : Z) (token : string) (interactive : bool)
  : HeadOptions :=
  mkHeadOptions (Some fakeConfigFlags) (Some (mkPrintFlags (Some ""))) ""
    limit token interactive "" false "" None None None.

(** A world whose output sink is closed: the printer fails on every page. *)
Definition brokenSinkWorld (pages : list (string * Table)) : World :=
  mkWorld (fun _ => None) (fun _ => None)
    (fun _ _ _ _ lo => pageFor pages (loContinue lo))
    (fun _ _ => Some (External "broken pipe"))
    (scriptedStdin []).

(** ** Proof automation *)

Ltac run :=
  cbn [loop];
  unfold bind, field, Do, PrintObj, ReadRune, emit, ret, outOfFuel, panic,
    call, after, getEvent, listOptionsOf, rendered in *;
  cbn [heapO trace fst snd andb negb length Nat.eqb String.eqb];
  repeat rewrite <- app_assoc; cbn [app].

Ltac framed :=
  let X := fresh "X" in
  let HIn := fresh "HIn" in
  eexists; split; [cbn [snd app]; reflexivity|];
  split; [repeat constructor; auto|];
  split;
  [ intros X HIn; unfold getEvent in HIn; simpl in HIn;
    intuition (try discriminate)
  | eauto ].

Ltac validate_cases o :=
  let fmt := fresh "fmt" in
  unfold Validate, formatUnsupported;
  destruct (Z.leb_spec (Limit o) 0);
  [|destruct (Interactive o);
    [destruct (String.eqb_spec (ContinueToken o) "");
     [destruct (derefOutputFormat o) as [fmt|];
      [destruct (String.eqb_spec fmt "");
       [|destruct (String.eqb_spec fmt "wide")]|]|]|]];
  cbn [andb negb].

Ltac complete_cases w st :=
  let cf := fresh "cf" in
  let config := fresh "config" in
  unfold Complete; run; unfold assign;
  cbn [heapO trace setResource ConfigFlags];
  destruct (ConfigFlags (heapO st)) as [cf|] eqn:?;
  [ cbn [heapO trace];
    destruct (snd (ToRESTMapper cf)) eqn:?;
    [| cbn [heapO trace];
       destruct (snd (RawNamespace cf)) eqn:?;
       [| cbn [heapO trace];
          destruct (snd (ToRESTConfig cf)) eqn:?;
          [| cbn [heapO trace setRESTConfig RESTConfig];
             destruct (fst (ToRESTConfig cf)) as [config|] eqn:?;
             [ destruct (dynamicError w config) eqn:? |]]]]
  |];
  cbn.

(** ** Facts about [strings.Split] and [strings.Count] *)

Lemma Split_length (s : string) (c : ascii) :
  length (strings.Split s c) = S (strings.Count s c).
Proof.
  induction s as [|a s IH]; simpl; [reflexivity|].
  destruct (a =? c)%char; simpl.
  - now rewrite IH.
  - destruct (strings.Split s c) as [|p ps]; simpl in *; [discriminate|exact IH].
Qed.

Lemma Split_no_sep (s : string) (c : ascii) :
  strings.Count s c = 0%nat -> strings.Split s c = [s].
Proof.
  induction s as [|a s IH]; simpl; [reflexivity|].
  destruct (a =? c)%char; [discriminate|].
  intros H. now rewrite (IH H).
Qed.

Lemma Split_app (l r : string) (c : ascii) :
  strings.Count l c = 0%nat ->
  strings.Split (l ++ String c r)%string c = l :: strings.Split r c.
Proof.
  induction l as [|a l IH]; simpl.
  - intros _. now rewrite Ascii.eqb_refl.
  - destruct (a =? c)%char; [discriminate|].
    intros H. now rewrite (IH H).
Qed.

Lemma Count_app (l r : string) (c : ascii) :
  strings.Count (l ++ r)%string c = (strings.Count l c + strings.Count r c)%nat.
Proof.
  induction l as [|a l IH]; simpl; [reflexivity|].
  destruct (a =? c)%char; simpl; now rewrite IH.
Qed.

Lemma Count_positive_decompose (s : string) (c : ascii) (n : nat) :
  strings.Count s c = S n ->
  exists l r, s = (l ++ String c r)%string /\ strings.Count l c = 0%nat
              /\ strings.Count r c = n.
Proof.
  induction s as [|a s IH]; simpl; [discriminate|].
  destruct (a =? c)%char eqn:E.
  - intros H. apply Ascii.eqb_eq in E. subst a.
    exists EmptyString, s. simpl. repeat split. now injection H.
  - intros H. destruct (IH H) as (l & r & -> & Hl & Hr).
    exists (String a l), r. simpl. rewrite E. repeat split; assumption.
Qed.

(** ** Resolution of the resource name *)

Section ResolverFacts.

Variable mapUnicodeLower : string -> string.

Lemma gvrToFind_split (o : HeadOptions) (x y : string) :
  resourceArg mapUnicodeLower o = (x ++ String dot y)%string ->
  strings.Count x dot = 0%nat -> strings.Count y dot = 0%nat ->
  gvrToFind mapUnicodeLower o = mkGVR y "" x.
Proof.
  intros E Hx Hy. unfold gvrToFind.
  rewrite E, (Split_app _ _ _ Hx), (Split_no_sep _ _ Hy). reflexivity.
Qed.

Lemma gvrToFind_unsplit (o : HeadOptions) :
  strings.Count (resourceArg mapUnicodeLower o) dot <> 1%nat ->
  gvrToFind mapUnicodeLower o = mkGVR "" "" (resourceArg mapUnicodeLower o).
Proof.
  intros H. unfold gvrToFind.
  pose proof (Split_length (resourceArg mapUnicodeLower o) dot) as L.
  destruct (strings.Split (resourceArg mapUnicodeLower o) dot)
    as [|p0 [|p1 [|p2 ps]]]; simpl in L; try reflexivity.
  exfalso. apply H. now injection L.
Qed.


(** C8.  A name whose only ['.'] is its last character, [x.], is split:
    the mapper is asked for resource [x] in the empty (core) group, not for
    the resource [x.], and nothing is rejected before the mapper is asked. *)
Theorem GetResourceGVR_trailing_dot (o : HeadOptions) (x : string) :
  resourceArg mapUnicodeLower o = (x ++ ".")%string ->
  strings.Count x dot = 0%nat ->
  gvrToFind mapUnicodeLower o = mkGVR "" "" x /\
  Resource (gvrToFind mapUnicodeLower o) <> resourceArg mapUnicodeLower o /\
  forall m, Mapper o = Some m ->
    GetResourceGVR mapUnicodeLower o =
      match ResourceFor m (mkGVR "" "" x) with
      | inl _ => Returns (emptyGVR, Some (ErrNoResourceType o))
      | inr gvr => Returns (gvr, None)
      end.
Proof.
  intros E Hx.
  assert (G : gvrToFind mapUnicodeLower o = mkGVR "" "" x)
    by (apply gvrToFind_split; [exact E | exact Hx | reflexivity]).
  repeat split.
  - exact G.
  - rewrite G, E. simpl. intros C.
    pose proof (Count_app x "." dot) as L.
    rewrite <- C, Hx in L. simpl in L. discriminate.
  - intros m Hm. unfold GetResourceGVR. now rewrite Hm, G.
Qed.

End ResolverFacts.

(** ** Validation *)

(** With [o.Interactive] set, a nil [PrintFlags] or [OutputFormat] is
    dereferenced once the first two checks have passed. *)
Lemma Validate_nil_format (o : HeadOptions) :
  (0 < Limit o)%Z -> Interactive o = true -> ContinueToken o = "" ->
  derefOutputFormat o = None -> Validate o = Panic.
Proof.
  intros HL HI HT HF. unfold Validate.
  destruct (Z.leb_spec (Limit o) 0) as [|_]; [lia|].
  rewrite HI, HT, HF. reflexivity.
Qed.


(** ** The transport client *)

(** C6.  [NewRestClient] builds its client from a configuration whose API
    path is ["/api"] when the group is empty and ["/apis"] otherwise, whose
    accept header asks for the table representation first and for plain JSON
    second, and which is bound to the group/version; a client that is
    returned carries exactly that configuration. *)
Theorem NewRestClient_negotiates_table (w : World) (config : Config)
    (gv : GroupVersion) :
  let cfg := tableConfig config gv in
  NewRestClient w config gv = RESTClientFor w cfg /\
  (gvGroup gv = "" -> APIPath cfg = "/api") /\
  (gvGroup gv <> "" -> APIPath cfg = "/apis") /\
  strings.Split (AcceptContentTypes cfg) comma =
    ["application/json;as=Table;v=v1;g=meta.k8s.io"; "application/json"] /\
  cfgGroupVersion cfg = Some gv /\
  Host cfg = Host config /\
  (forall client, NewRestClient w config gv = inr client ->
     clientConfig client = cfg).
Proof.
  cbv zeta. unfold NewRestClient, RESTClientFor, tableConfig.
  repeat split.
  - intros ->. reflexivity.
  - intros H. apply String.eqb_neq in H. rewrite H. reflexivity.
  - destruct (gvGroup gv =? ""); reflexivity.
  - destruct (gvGroup gv =? ""); reflexivity.
  - intros client. destruct (clientError w _); [discriminate|].
    intros H. injection H as <-. reflexivity.
Qed.

(** ** One iteration of the loop of [Run] *)

Section LoopFacts.

Variable w : World.
Variables (ns : string) (gvr : GroupVersionResource) (c : RESTClient).

Lemma loop_fetch_error fuel tok first st err :
  roundTrip w (trace st) c ns (Resource gvr) (listOptionsOf (heapO st) tok)
    = inl err ->
  loop w (S fuel) ns gvr c tok first st =
    (Returns (Some err), after st [getEvent c ns gvr (heapO st) tok]).
Proof. intros H. run. rewrite H. reflexivity. Qed.

Lemma loop_no_resources fuel tok st table :
  roundTrip w (trace st) c ns (Resource gvr) (listOptionsOf (heapO st) tok)
    = inr table ->
  Rows table = [] ->
  loop w (S fuel) ns gvr c tok true st =
    (Returns None,
     after st [getEvent c ns gvr (heapO st) tok; EvOut NoResourcesLine]).
Proof. intros H R. run. rewrite H, R. run. reflexivity. Qed.

Section Rendered.

Variables (fuel : nat) (tok : string) (first : bool) (st : state)
          (table : Table).
Let get := getEvent c ns gvr (heapO st) tok.

Hypothesis fetched :
  roundTrip w (trace st) c ns (Resource gvr) (listOptionsOf (heapO st) tok)
    = inr table.
Hypothesis shown : rendered first table.

Lemma loop_print_error err :
  printError w (trace st ++ [get]) table = Some err ->
  loop w (S fuel) ns gvr c tok first st =
    (Returns (Some err), after st [get; EvPrintObj table]).
Proof.
  subst get. intros P. run. rewrite fetched, shown. run.
  rewrite P. reflexivity.
Qed.

Hypothesis printed : printError w (trace st ++ [get]) table = None.

Lemma loop_last_page :
  Continue table = "" ->
  loop w (S fuel) ns gvr c tok first st =
    (Returns None,
     after st ([get; EvPrintObj table] ++
               if Interactive (heapO st) then [EvOut EndOfListLine] else [])).
Proof.
  subst get. intros T. run. rewrite fetched, shown. run.
  rewrite printed, T. run. destruct (Interactive (heapO st)); run;
    reflexivity.
Qed.

Hypothesis more : Continue table <> "".

Lemma loop_token_printed :
  Interactive (heapO st) = false ->
  loop w (S fuel) ns gvr c tok first st =
    (Returns None,
     after st [get; EvPrintObj table;
               EvOut (ContinueTokenLine (Continue table))]).
Proof.
  subst get. intros I. run. rewrite fetched, shown. run.
  rewrite printed. apply String.eqb_neq in more. rewrite more. run. rewrite I. run.
  reflexivity.
Qed.

Hypothesis interactive : Interactive (heapO st) = true.

Lemma loop_read_error err :
  stdinRune w (trace st ++ [get; EvPrintObj table; EvOut Prompt])
    = inl err ->
  loop w (S fuel) ns gvr c tok first st =
    (Returns (Some err),
     after st [get; EvPrintObj table; EvOut Prompt; EvReadRune]).
Proof.
  subst get. intros R. run. rewrite fetched, shown. run.
  rewrite printed. apply String.eqb_neq in more. rewrite more. run.
  rewrite interactive. run. rewrite R. reflexivity.
Qed.

Lemma loop_read_quit char :
  stdinRune w (trace st ++ [get; EvPrintObj table; EvOut Prompt])
    = inr char ->
  char <> 110%Z ->
  loop w (S fuel) ns gvr c tok first st =
    (Returns None,
     after st [get; EvPrintObj table; EvOut Prompt; EvReadRune;
               EvStdout nl]).
Proof.
  subst get. intros R N. run. rewrite fetched, shown. run.
  rewrite printed. apply String.eqb_neq in more. rewrite more. run.
  rewrite interactive. run. rewrite R. apply Z.eqb_neq in N. rewrite N. run. reflexivity.
Qed.

Lemma loop_read_next :
  stdinRune w (trace st ++ [get; EvPrintObj table; EvOut Prompt])
    = inr 110%Z ->
  loop w (S fuel) ns gvr c tok first st =
    loop w fuel ns gvr c (Continue table) false
      (after st [get; EvPrintObj table; EvOut Prompt; EvReadRune;
                 EvStdout nl]).
Proof.
  subst get. intros R. run. rewrite fetched, shown. run.
  rewrite printed. apply String.eqb_neq in more. rewrite more. run.
  rewrite interactive. run. rewrite R. run. reflexivity.
Qed.

End Rendered.

End LoopFacts.

(** ** What every run of the loop does *)

Lemma after_nil st : after st [] = st.
Proof. destruct st. unfold after. simpl. now rewrite app_nil_r. Qed.

Lemma after_after st evs evs' : after (after st evs) evs' = after st (evs ++ evs').
Proof. unfold after. simpl. now rewrite app_assoc. Qed.

Section LoopInvariant.

Variable w : World.
Variables (ns : string) (gvr : GroupVersionResource) (c : RESTClient).

Lemma loop_frame fuel : forall tok first st,
  exists evs,
    snd (loop w fuel ns gvr c tok first st) = after st evs /\
    Forall (sessionEvent (heapO st) c ns gvr) evs /\
    (first = false -> ~ In (EvOut NoResourcesLine) evs) /\
    match fuel with
    | O => evs = []
    | S _ => exists rest, evs = getEvent c ns gvr (heapO st) tok :: rest
    end.
Proof.
  assert (G : forall o tok, sessionEvent o c ns gvr (getEvent c ns gvr o tok))
    by (intros; repeat split).
  induction fuel as [|fuel IH]; intros tok first st.
  { exists []. rewrite after_nil. repeat split; auto. }
  destruct (roundTrip w (trace st) c ns (Resource gvr)
              (listOptionsOf (heapO st) tok)) as [err|table] eqn:F.
  { rewrite (loop_fetch_error _ _ _ _ _ _ _ _ _ F). framed. }
  destruct (first && (length (Rows table) =? 0)%nat) eqn:S.
  { apply andb_prop in S. destruct S as [-> S].
    destruct (Rows table) eqn:R; [|discriminate].
    rewrite (loop_no_resources _ _ _ _ _ _ _ _ F R). framed. }
  destruct (printError w (trace st ++ [getEvent c ns gvr (heapO st) tok]) table)
    as [err|] eqn:P.
  { rewrite (loop_print_error _ _ _ _ _ _ _ _ _ F S _ P). framed. }
  destruct (String.eqb_spec (Continue table) "") as [T|T].
  { rewrite (loop_last_page _ _ _ _ _ _ _ _ _ F S P T).
    destruct (Interactive (heapO st)); framed. }
  destruct (Interactive (heapO st)) eqn:I.
  2:{ rewrite (loop_token_printed _ _ _ _ _ _ _ _ _ F S P T I). framed. }
  destruct (stdinRune w (trace st ++ [getEvent c ns gvr (heapO st) tok;
                                      EvPrintObj table; EvOut Prompt]))
    as [err|char] eqn:R.
  { rewrite (loop_read_error _ _ _ _ _ _ _ _ _ F S P T I _ R). framed. }
  destruct (Z.eq_dec char 110) as [->|C].
  2:{ rewrite (loop_read_quit _ _ _ _ _ _ _ _ _ F S P T I _ R C). framed. }
  rewrite (loop_read_next _ _ _ _ _ _ _ _ _ F S P T I R).
  match goal with |- context [loop w fuel ns gvr c ?t false ?s] =>
    destruct (IH t false s) as (evs & E & A & B & _) end.
  specialize (B eq_refl).
  rewrite E, after_after. framed.
Qed.

End LoopInvariant.

(** ** The run as a whole *)

Lemma Run_enters_loop mapUnicodeLower w fuel st gvr client :
  ready mapUnicodeLower w (heapO st) gvr client ->
  Run mapUnicodeLower w fuel st =
    loop w fuel (queriedNamespace (heapO st)) gvr client
      (ContinueToken (heapO st)) true st.
Proof.
  intros (G & config & C & N). unfold Run, queriedNamespace. run.
  rewrite G. run. rewrite C, N. reflexivity.
Qed.

(** [Complete], unlike [Run], writes to its receiver. *)
Lemma Complete_assigns_resource w resource st :
  oResource (heapO (snd (Complete w resource st))) = resource.
Proof.
  unfold Complete. run. unfold assign. cbn [heapO setResource ConfigFlags].
  destruct (ConfigFlags (heapO st)) as [cf|]; [|reflexivity].
  cbn [heapO trace]. destruct (snd (ToRESTMapper cf)); [reflexivity|].
  cbn [heapO trace]. destruct (snd (RawNamespace cf)); [reflexivity|].
  cbn [heapO trace]. destruct (snd (ToRESTConfig cf)); [reflexivity|].
  cbn [heapO trace setRESTConfig RESTConfig].
  destruct (fst (ToRESTConfig cf)); [|reflexivity].
  destruct (dynamicError w c); reflexivity.
Qed.

(** ** The session driver *)


(** C2, as the code has it.  In an interactive session a page with a
    non-empty token is followed by the prompt and one read.  The rune ['n']
    starts the next iteration, which is not a first one and whose request
    carries that page's token; any other rune ends the run with no error
    and no further request; a failed read ends the run with the read's
    error, and no further request. *)
Theorem prompt_read_decides (w : World) (fuel : nat) (ns : string)
    (gvr : GroupVersionResource) (c : RESTClient) (tok : string)
    (first : bool) (st : state) (table : Table) :
  let get := getEvent c ns gvr (heapO st) tok in
  let asked := [get; EvPrintObj table; EvOut Prompt] in
  let answered := after st (asked ++ [EvReadRune; EvStdout nl]) in
  roundTrip w (trace st) c ns (Resource gvr) (listOptionsOf (heapO st) tok)
    = inr table ->
  rendered first table ->
  printError w (trace st ++ [get]) table = None ->
  Continue table <> "" ->
  Interactive (heapO st) = true ->
  (stdinRune w (trace st ++ asked) = inr 110%Z ->
     loop w (S fuel) ns gvr c tok first st =
       loop w fuel ns gvr c (Continue table) false answered /\
     exists rest,
       snd (loop w (S (S fuel)) ns gvr c tok first st) =
         after answered
           (getEvent c ns gvr (heapO st) (Continue table) :: rest)) /\
  (forall char, stdinRune w (trace st ++ asked) = inr char -> char <> 110%Z ->
     loop w (S fuel) ns gvr c tok first st = (Returns None, answered)) /\
  (forall err, stdinRune w (trace st ++ asked) = inl err ->
     loop w (S fuel) ns gvr c tok first st =
       (Returns (Some err), after st (asked ++ [EvReadRune]))).
Proof.
  cbv zeta. intros F S P T I. split; [|split].
  - intros R. split.
    + now apply loop_read_next.
    + rewrite (loop_read_next _ _ _ _ _ _ _ _ _ F S P T I R).
      match goal with |- context [loop w (Datatypes.S fuel) ns gvr c ?t false ?s] =>
        destruct (loop_frame w ns gvr c (Datatypes.S fuel) t false s)
          as (evs & E & _ & _ & rest & ->) end.
      exists rest. exact E.
  - intros char R N. now apply (loop_read_quit _ _ _ _ _ _ _ _ _ F S P T I char).
  - intros err R. now apply loop_read_error.
Qed.


(** C7.  A page fetch that fails, in whichever iteration, ends the run with
    that error: the request is the last thing the run does, so nothing is
    written for the page and no request follows.  This holds for the first
    request of a run in particular. *)
Theorem fetch_error_is_fatal (w : World) (fuel : nat) (ns : string)
    (gvr : GroupVersionResource) (c : RESTClient) (tok : string)
    (first : bool) (st : state) (err : error) :
  roundTrip w (trace st) c ns (Resource gvr) (listOptionsOf (heapO st) tok)
    = inl err ->
  loop w (S fuel) ns gvr c tok first st =
    (Returns (Some err), after st [getEvent c ns gvr (heapO st) tok]) /\
  (forall mapUnicodeLower,
     ready mapUnicodeLower w (heapO st) gvr c ->
     ns = queriedNamespace (heapO st) -> tok = ContinueToken (heapO st) ->
     Run mapUnicodeLower w (S fuel) st =
       (Returns (Some err), after st [getEvent c ns gvr (heapO st) tok])).
Proof.
  intros F. split.
  - now apply loop_fetch_error.
  - intros mapUnicodeLower R -> ->.
    rewrite (Run_enters_loop _ _ _ _ _ _ R). now apply loop_fetch_error.
Qed.

(** C9.  An iteration that is not the first one does not look at the row
    count.  When a later page of an interactive session has no rows, the page
    is still handed to the printer right after the request and the line
    [No resources found.] is written nowhere in the rest of the run; with
    the page printed, an empty token gives the end-of-list marker and ends
    the run, a non-empty token gives the prompt and a read, and ['n'] starts
    the next iteration with that page's token.  Every iteration started from
    the prompt is such a later one: it runs with [isFirstRequest] false. *)
Theorem later_empty_page_is_rendered (w : World) (fuel : nat) (ns : string)
    (gvr : GroupVersionResource) (c : RESTClient) (tok : string)
    (st : state) (table : Table) :
  let get := getEvent c ns gvr (heapO st) tok in
  let asked := [get; EvPrintObj table; EvOut Prompt] in
  roundTrip w (trace st) c ns (Resource gvr) (listOptionsOf (heapO st) tok)
    = inr table ->
  Rows table = [] ->
  Interactive (heapO st) = true ->
  (exists r evs,
     loop w (S fuel) ns gvr c tok false st =
       (r, after st (get :: EvPrintObj table :: evs)) /\
     ~ In (EvOut NoResourcesLine) (get :: EvPrintObj table :: evs)) /\
  (printError w (trace st ++ [get]) table = None ->
     (Continue table = "" ->
        loop w (S fuel) ns gvr c tok false st =
          (Returns None,
           after st [get; EvPrintObj table; EvOut EndOfListLine])) /\
     (Continue table <> "" ->
        exists r evs,
          loop w (S fuel) ns gvr c tok false st =
            (r, after st (asked ++ EvReadRune :: evs))) /\
     (Continue table <> "" ->
        stdinRune w (trace st ++ asked) = inr 110%Z ->
        loop w (S fuel) ns gvr c tok false st =
          loop w fuel ns gvr c (Continue table) false
            (after st (asked ++ [EvReadRune; EvStdout nl])))) /\
  (forall first0 tok0 st0 table0,
     let get0 := getEvent c ns gvr (heapO st0) tok0 in
     let asked0 := [get0; EvPrintObj table0; EvOut Prompt] in
     roundTrip w (trace st0) c ns (Resource gvr)
       (listOptionsOf (heapO st0) tok0) = inr table0 ->
     rendered first0 table0 ->
     printError w (trace st0 ++ [get0]) table0 = None ->
     Continue table0 <> "" ->
     Interactive (heapO st0) = true ->
     stdinRune w (trace st0 ++ asked0) = inr 110%Z ->
     loop w (S fuel) ns gvr c tok0 first0 st0 =
       loop w fuel ns gvr c (Continue table0) false
         (after st0 (asked0 ++ [EvReadRune; EvStdout nl]))).
Proof.
  cbv zeta. intros F E I.
  assert (S : rendered false table) by reflexivity.
  assert (Shape :
    printError w (trace st ++ [getEvent c ns gvr (heapO st) tok]) table = None ->
    Continue table <> "" ->
    exists r evs,
      loop w (Datatypes.S fuel) ns gvr c tok false st =
        (r, after st ([getEvent c ns gvr (heapO st) tok; EvPrintObj table;
                       EvOut Prompt] ++ EvReadRune :: evs)) /\
      ~ In (EvOut NoResourcesLine) evs).
  { intros P T.
    destruct (stdinRune w (trace st ++ [getEvent c ns gvr (heapO st) tok;
                                        EvPrintObj table; EvOut Prompt]))
      as [err|char] eqn:R.
    { rewrite (loop_read_error _ _ _ _ _ _ _ _ _ F S P T I _ R).
      eexists; exists []. split; [reflexivity|]. intros []. }
    destruct (Z.eq_dec char 110) as [->|C].
    2:{ rewrite (loop_read_quit _ _ _ _ _ _ _ _ _ F S P T I _ R C).
        eexists; exists [EvStdout nl]. split; [reflexivity|].
        intros [X|[]]. discriminate X. }
    rewrite (loop_read_next _ _ _ _ _ _ _ _ _ F S P T I R).
    match goal with |- context [loop w fuel ns gvr c ?t false ?s] =>
      destruct (loop_frame w ns gvr c fuel t false s) as (evs & X & _ & B & _);
      destruct (loop w fuel ns gvr c t false s) as [r s'] end.
    cbn [snd] in X. subst s'. rewrite after_after.
    exists r, (EvStdout nl :: evs). split; [reflexivity|].
    intros [X|X]; [discriminate X|]. now apply B. }
  split; [|split].
  - destruct (printError w (trace st ++ [getEvent c ns gvr (heapO st) tok]) table)
      as [err|] eqn:P.
    { rewrite (loop_print_error _ _ _ _ _ _ _ _ _ F S _ P).
      eexists; exists []. split; [reflexivity|].
      unfold getEvent. simpl. intuition discriminate. }
    destruct (String.eqb_spec (Continue table) "") as [T|T].
    { rewrite (loop_last_page _ _ _ _ _ _ _ _ _ F S P T), I.
      eexists; exists [EvOut EndOfListLine]. split; [reflexivity|].
      unfold getEvent. simpl. intuition discriminate. }
    destruct (Shape eq_refl T) as (r & evs & L & N).
    exists r, (EvOut Prompt :: EvReadRune :: evs). split; [exact L|].
    unfold getEvent. simpl. intuition discriminate.
  - intros P. split; [|split].
    + intros T. rewrite (loop_last_page _ _ _ _ _ _ _ _ _ F S P T), I.
      reflexivity.
    + intros T. destruct (Shape P T) as (r & evs & L & _).
      exists r, evs. exact L.
    + intros T R. now apply loop_read_next.
  - intros first0 tok0 st0 table0 F0 S0 P0 T0 I0 R0. now apply loop_read_next.
Qed.

(** C10.  [Run] does not assign to its receiver.  Whatever the run does
    (returns nil, returns an error, panics or is cut off), the options in the
    store are the ones it started with, the trace has only grown, and every
    request of the run carries the limit and the label selector of the
    options and the one namespace [ns]. *)
Theorem Run_leaves_options_alone (mapUnicodeLower : string -> string)
    (w : World) (fuel : nat) (st : state) :
  let st' := snd (Run mapUnicodeLower w fuel st) in
  heapO st' = heapO st /\
  exists evs,
    trace st' = trace st ++ evs /\
    forall c ns resource lo, In (EvGet c ns resource lo) evs ->
      loLimit lo = Limit (heapO st) /\
      loLabelSelector lo = Selector (heapO st) /\
      ns = queriedNamespace (heapO st).
Proof.
  cbv zeta.
  assert (Idle : forall r : outcome (option error),
    heapO (snd (r, st)) = heapO st /\
    exists evs, trace (snd (r, st)) = trace st ++ evs /\
      forall c ns resource lo, In (EvGet c ns resource lo) evs ->
        loLimit lo = Limit (heapO st) /\
        loLabelSelector lo = Selector (heapO st) /\
        ns = queriedNamespace (heapO st)).
  { intros r. split; [reflexivity|]. exists []. simpl.
    rewrite app_nil_r. split; [reflexivity|]. intros ? ? ? ? []. }
  unfold Run. run.
  destruct (GetResourceGVR mapUnicodeLower (heapO st)) as [[gvr [e|]]| |];
    try apply Idle.
  run. destruct (RESTConfig (heapO st)) as [config|]; [|apply Idle].
  destruct (NewRestClient w config (GroupVersionOf gvr)) as [e|client];
    [apply Idle|].
  run.
  match goal with |- context [loop w fuel ?n gvr client ?t true st] =>
    destruct (loop_frame w n gvr client fuel t true st) as (evs & E & A & _) end.
  rewrite E. split; [reflexivity|]. exists evs. split; [reflexivity|].
  intros c ns resource lo HIn.
  rewrite Forall_forall in A. specialize (A _ HIn). simpl in A.
  unfold queriedNamespace. tauto.
Qed.

(** ** The runs of the fixtures *)

(** The four cases of [TestValidate]. *)
Example TestValidate :
  Validate (validateCase (Some (mkPrintFlags (Some ""))) 10 "" false)
    = Returns None /\
  Validate (validateCase None 0 "" false) = Returns (Some ErrLimit) /\
  Validate (validateCase None 10 "token" true)
    = Returns (Some ErrInteractiveContinue) /\
  Validate (validateCase (Some (mkPrintFlags (Some "json"))) 10 "" true)
    = Returns (Some ErrInteractiveOutput).
Proof. repeat split. Qed.

(** The three cases of [TestGetResourceGVR]. *)
Example TestGetResourceGVR :
  GetResourceGVR noUnicode (resolveCase "pods" fakeRESTMapper)
    = Returns (podsGVR, None) /\
  GetResourceGVR noUnicode
    (resolveCase "deployments.apps" (fakeRESTMapperImpl deploymentsGVR None))
    = Returns (deploymentsGVR, None) /\
  GetResourceGVR noUnicode
    (resolveCase "nonexistent"
       (fakeRESTMapperImpl emptyGVR (Some (External "not found"))))
    = Returns (emptyGVR,
               Some (Errorf "the server doesn't have a resource type %q"
                       ["nonexistent"])).
Proof. repeat split. Qed.

(** A group that the mapper does not know is refused by the mapper. *)
Example GetResourceGVR_wrong_group :
  GetResourceGVR noUnicode (resolveCase "pods.apps" fakeRESTMapper)
    = Returns (emptyGVR,
               Some (Errorf "the server doesn't have a resource type %q"
                       ["pods.apps"])).
Proof. reflexivity. Qed.

(** Names with two dots are not split. *)
Example gvrToFind_two_dots :
  gvrToFind noUnicode (resolveCase "Pods.v1.Apps" fakeRESTMapper)
    = mkGVR "" "" "pods.v1.apps".
Proof. reflexivity. Qed.

(** One page and its token, as [TestRun_WithContinue] has it. *)
Example Run_prints_token :
  let o := testOptions 1 "" false in
  Run noUnicode (fakeWorld threePages []) 3 (initialState o) =
    (Returns None,
     mkState o [get1 o; EvPrintObj page1; EvOut (ContinueTokenLine "tok1")]).
Proof. reflexivity. Qed.

(** Stepping through all three pages with ['n'], ['n']. *)
Example Run_steps_through :
  let o := testOptions 1 "" true in
  Run noUnicode (fakeWorld threePages [inr 110%Z; inr 110%Z]) 3
      (initialState o) =
    (Returns None,
     mkState o
       [get1 o; EvPrintObj page1; EvOut Prompt; EvReadRune; EvStdout nl;
        getEvent podsClient "default" podsGVR o "tok1";
        EvPrintObj page2; EvOut Prompt; EvReadRune; EvStdout nl;
        getEvent podsClient "default" podsGVR o "tok2";
        EvPrintObj page3; EvOut EndOfListLine]).
Proof. reflexivity. Qed.

(** The loop is cut off when its bound is smaller than the number of pages
    the input asks for. *)
Example Run_out_of_fuel :
  fst (Run noUnicode (fakeWorld threePages [inr 110%Z; inr 110%Z]) 2
         (initialState (testOptions 1 "" true))) = OutOfFuel.
Proof. reflexivity. Qed.

(** C2, counterexample.  With the input stream at its end the read at the
    first prompt fails, and the run returns [io.EOF], not nil. *)
Lemma read_failure_returns_the_error :
  let o := testOptions 1 "" true in
  Run noUnicode (fakeWorld threePages []) 1 (initialState o) =
    (Returns (Some EOF),
     mkState o [get1 o; EvPrintObj page1; EvOut Prompt; EvReadRune]) /\
  ~ read_failure_ends_without_error.
Proof.
  split; [reflexivity|].
  intros H.
  specialize (H (fakeWorld threePages []) 0%nat "default" podsGVR podsClient ""
                true (initialState (testOptions 1 "" true)) page1 EOF
                eq_refl eq_refl eq_refl).
  cbv zeta in H.
  assert (T : Continue page1 <> "") by discriminate.
  specialize (H T eq_refl eq_refl). discriminate H.
Qed.

(** ** The theorems at the fixtures *)


Lemma prompt_read_decides_witness :
  let o := testOptions 1 "" true in
  let w := fakeWorld threePages [inr 110%Z] in
  let answered :=
    mkState o [get1 o; EvPrintObj page1; EvOut Prompt; EvReadRune; EvStdout nl] in
  loop w 1 "default" podsGVR podsClient "" true (initialState o) =
    loop w 0 "default" podsGVR podsClient "tok1" false answered /\
  exists rest,
    snd (loop w 2 "default" podsGVR podsClient "" true (initialState o)) =
      after answered (getEvent podsClient "default" podsGVR o "tok1" :: rest).
Proof.
  cbv zeta.
  assert (T : Continue page1 <> "") by discriminate.
  exact (proj1
    (prompt_read_decides (fakeWorld threePages [inr 110%Z]) 0 "default" podsGVR
       podsClient "" true (initialState (testOptions 1 "" true)) page1
       eq_refl eq_refl eq_refl T eq_refl) eq_refl).
Defined.




Lemma NewRestClient_negotiates_table_witness :
  APIPath (tableConfig baseConfig (mkGV "" "v1")) = "/api" /\
  APIPath (tableConfig baseConfig (mkGV "apps" "v1")) = "/apis" /\
  clientConfig podsClient = tableConfig baseConfig (mkGV "" "v1").
Proof.
  pose (w := fakeWorld threePages []).
  split; [|split].
  - exact (proj1 (proj2
      (NewRestClient_negotiates_table w baseConfig (mkGV "" "v1"))) eq_refl).
  - apply (proj1 (proj2 (proj2
      (NewRestClient_negotiates_table w baseConfig (mkGV "apps" "v1"))))).
    discriminate.
  - exact (proj2 (proj2 (proj2 (proj2 (proj2 (proj2
      (NewRestClient_negotiates_table w baseConfig (mkGV "" "v1")))))))
      podsClient eq_refl).
Defined.

Lemma fetch_error_is_fatal_witness :
  let o := testOptions 1 "stale" false in
  Run noUnicode (fakeWorld threePages []) 1 (initialState o) =
    (Returns (Some (External "410 Gone")), mkState o [get1 o]).
Proof.
  cbv zeta.
  refine (proj2
    (fetch_error_is_fatal (fakeWorld threePages []) 0 "default" podsGVR
       podsClient "stale" true (initialState (testOptions 1 "stale" false))
       (External "410 Gone") eq_refl)
    noUnicode _ eq_refl eq_refl).
  split; [reflexivity|]. exists baseConfig. split; reflexivity.
Defined.

Lemma GetResourceGVR_trailing_dot_witness :
  gvrToFind noUnicode (setResource "Pods." (testOptions 1 "" false))
    = mkGVR "" "" "pods".
Proof.
  exact (proj1
    (GetResourceGVR_trailing_dot noUnicode
       (setResource "Pods." (testOptions 1 "" false)) "pods" eq_refl eq_refl)).
Defined.

Lemma later_empty_page_is_rendered_witness :
  let o := testOptions 1 "" true in
  let w := fakeWorld threePages [inr 110%Z; inr 113%Z] in
  let st1 :=
    mkState o [get1 o; EvPrintObj page1; EvOut Prompt; EvReadRune; EvStdout nl] in
  let get := getEvent podsClient "default" podsGVR o "tok1" in
  exists r evs,
    loop w 1 "default" podsGVR podsClient "tok1" false st1 =
      (r, after st1 (get :: EvPrintObj page2 :: evs)) /\
    ~ In (EvOut NoResourcesLine) (get :: EvPrintObj page2 :: evs).
Proof.
  cbv zeta.
  exact (proj1
    (later_empty_page_is_rendered
       (fakeWorld threePages [inr 110%Z; inr 113%Z]) 0 "default" podsGVR
       podsClient "tok1"
       (mkState (testOptions 1 "" true)
          [get1 (testOptions 1 "" true); EvPrintObj page1; EvOut Prompt;
           EvReadRune; EvStdout nl])
       page2 eq_refl eq_refl eq_refl)).
Defined.

Lemma Run_leaves_options_alone_witness :
  let o := testOptions 1 "" true in
  let st' := snd (Run noUnicode (fakeWorld threePages [inr 110%Z; inr 110%Z]) 3
                    (initialState o)) in
  heapO st' = o /\
  exists evs,
    trace st' = [] ++ evs /\
    forall c ns resource lo, In (EvGet c ns resource lo) evs ->
      loLimit lo = 1%Z /\ loLabelSelector lo = "" /\ ns = "default".
Proof.
  exact (Run_leaves_options_alone noUnicode
           (fakeWorld threePages [inr 110%Z; inr 110%Z]) 3
           (initialState (testOptions 1 "" true))).
Defined.

(** ** The loop and the relation [runs] *)

Section RunsFacts.

Variable w : World.
Variables (ns : string) (gvr : GroupVersionResource) (c : RESTClient).

(** Whatever the loop computes is a run of the relation. *)
Lemma loop_runs fuel : forall tok first st,
  exists evs r,
    loop w fuel ns gvr c tok first st = (r, after st evs) /\
    runs w ns gvr c (heapO st) (trace st) tok first evs r.
Proof.
  induction fuel as [|fuel IH]; intros tok first st.
  { exists [], OutOfFuel. rewrite after_nil. split; [reflexivity|constructor]. }
  destruct (roundTrip w (trace st) c ns (Resource gvr)
              (listOptionsOf (heapO st) tok)) as [err|table] eqn:F.
  { rewrite (loop_fetch_error _ _ _ _ _ _ _ _ _ F).
    do 2 eexists. split; [reflexivity|]. now constructor. }
  destruct (first && (length (Rows table) =? 0)%nat) eqn:S.
  { apply andb_prop in S. destruct S as [-> S].
    destruct (Rows table) eqn:R; [|discriminate].
    rewrite (loop_no_resources _ _ _ _ _ _ _ _ F R).
    do 2 eexists. split; [reflexivity|]. now apply runs_no_resources with table. }
  destruct (printError w (trace st ++ [getEvent c ns gvr (heapO st) tok]) table)
    as [err|] eqn:P.
  { rewrite (loop_print_error _ _ _ _ _ _ _ _ _ F S _ P).
    do 2 eexists. split; [reflexivity|]. now apply runs_print_error. }
  destruct (String.eqb_spec (Continue table) "") as [T|T].
  { rewrite (loop_last_page _ _ _ _ _ _ _ _ _ F S P T).
    do 2 eexists. split; [reflexivity|]. now apply runs_last_page. }
  destruct (Interactive (heapO st)) eqn:I.
  2:{ rewrite (loop_token_printed _ _ _ _ _ _ _ _ _ F S P T I).
      do 2 eexists. split; [reflexivity|]. now apply runs_token. }
  destruct (stdinRune w (trace st ++ [getEvent c ns gvr (heapO st) tok;
                                      EvPrintObj table; EvOut Prompt]))
    as [err|char] eqn:R.
  { rewrite (loop_read_error _ _ _ _ _ _ _ _ _ F S P T I _ R).
    do 2 eexists. split; [reflexivity|]. now apply runs_read_error. }
  destruct (Z.eq_dec char 110) as [->|C].
  2:{ rewrite (loop_read_quit _ _ _ _ _ _ _ _ _ F S P T I _ R C).
      do 2 eexists. split; [reflexivity|]. now apply runs_quit with char. }
  rewrite (loop_read_next _ _ _ _ _ _ _ _ _ F S P T I R).
  match goal with |- context [loop w fuel ns gvr c ?t false ?s] =>
    destruct (IH t false s) as (evs & r & E & A) end.
  rewrite E, after_after. do 2 eexists. split; [reflexivity|].
  now apply runs_next.
Qed.

End RunsFacts.

(** ** The decision table of [Validate] *)

(** X1.  [Validate] accepts exactly the options with a positive limit that
    are either not interactive or have no continuation token and the empty
    or the ["wide"] output format. *)
Theorem Validate_accepts_iff (o : HeadOptions) :
  Validate o = Returns None <->
  (0 < Limit o)%Z /\
  (Interactive o = false \/
   (ContinueToken o = "" /\
    (derefOutputFormat o = Some "" \/ derefOutputFormat o = Some "wide"))).
Proof.
  validate_cases o; subst; split;
    try (intros X; discriminate X);
    try (intros [L X]; try lia;
         destruct X as [X|[T [X|X]]];
         try discriminate X; try congruence);
    intros _; (split; [lia|]); auto.
Qed.

(** X2.  The three checks are made in order and the first one that fails
    gives the error: the limit message whenever the limit is not positive;
    the interactive-with-continue message exactly when the limit is positive;
    the output-format message exactly when the first two checks pass.
    [Validate] returns no other error. *)
Theorem Validate_first_failing_check_wins (o : HeadOptions) :
  (Validate o = Returns (Some ErrLimit) <-> (Limit o <= 0)%Z) /\
  (Validate o = Returns (Some ErrInteractiveContinue) <->
     (0 < Limit o)%Z /\ Interactive o = true /\ ContinueToken o <> "") /\
  (Validate o = Returns (Some ErrInteractiveOutput) <->
     (0 < Limit o)%Z /\ Interactive o = true /\ ContinueToken o = "" /\
     formatUnsupported o) /\
  (forall e, Validate o = Returns (Some e) ->
     e = ErrLimit \/ e = ErrInteractiveContinue \/ e = ErrInteractiveOutput).
Proof.
  split; [|split; [|split]].
  - validate_cases o; subst; split;
      try (intros X; discriminate X); try (intros X; lia); auto.
  - validate_cases o; subst; split;
      try (intros X; discriminate X);
      try (intros (L & I & T); try lia; try discriminate I; try congruence).
    all: try (intros _; repeat split; try lia; auto).
  - validate_cases o; subst; split;
      try (intros X; discriminate X);
      try (intros (L & I & T & fmt' & F & N1 & N2); try lia;
           try discriminate I; try congruence).
    all: try (intros _; repeat split; try lia; auto; eexists; eauto).
  - validate_cases o; intros err X; try discriminate X; injection X as <-;
      auto.
Qed.

(** X3.  [Validate] panics exactly when it gets to read the output format
    (positive limit, interactive, no token) and the pointer is nil.  It never
    panics on non-interactive options, nor on options whose print flags
    [NewHeadOptions] allocated. *)
Theorem Validate_panics_iff (o : HeadOptions) :
  (Validate o = Panic <->
     (0 < Limit o)%Z /\ Interactive o = true /\ ContinueToken o = "" /\
     derefOutputFormat o = None) /\
  (Interactive o = false -> Validate o <> Panic) /\
  (forall cf, PrintFlags o = PrintFlags (NewHeadOptions cf) ->
     Validate o <> Panic).
Proof.
  assert (Main : Validate o = Panic <->
     (0 < Limit o)%Z /\ Interactive o = true /\ ContinueToken o = "" /\
     derefOutputFormat o = None).
  { validate_cases o; subst; split;
      try (intros X; discriminate X);
      try (intros (L & I & T & F); try lia; try discriminate I;
           try discriminate F; congruence);
      intros _; repeat split; auto; lia. }
  split; [exact Main|]. split.
  - intros I X. apply Main in X. destruct X as (_ & I' & _). congruence.
  - intros cf E X. apply Main in X. destruct X as (_ & _ & _ & F).
    unfold derefOutputFormat in F. rewrite E in F. discriminate F.
Qed.

(** ** More on the transport client and on resolution *)

(** X4.  [NewRestClient] overwrites what its base configuration says about
    the API path, the accept header, the group/version and the serializer:
    two bases with the same remainder give the same client, the serializer
    is always the one without conversion, and building from an already built
    configuration changes nothing. *)
Theorem NewRestClient_overwrites_base (w : World) (config config' : Config)
    (gv : GroupVersion) :
  NegotiatedSerializer (tableConfig config gv) = Some CodecsWithoutConversion /\
  tableConfig (tableConfig config gv) gv = tableConfig config gv /\
  (Host config = Host config' ->
   tableConfig config gv = tableConfig config' gv /\
   NewRestClient w config gv = NewRestClient w config' gv).
Proof.
  unfold NewRestClient, tableConfig. repeat split.
  - destruct (gvGroup gv =? ""); reflexivity.
  - destruct (gvGroup gv =? ""); cbn; congruence.
  - destruct (gvGroup gv =? ""); cbn; congruence.
Qed.

Lemma lowerByte_keeps_ascii (a : ascii) :
  strings.isASCIIByte a = true ->
  strings.isASCIIByte (strings.lowerByte a) = true.
Proof. destruct a as [[] [] [] [] [] [] [] []]; intros H; try exact H; reflexivity. Qed.

Lemma lowerByte_idempotent (a : ascii) :
  strings.lowerByte (strings.lowerByte a) = strings.lowerByte a.
Proof. destruct a as [[] [] [] [] [] [] [] []]; reflexivity. Qed.

Lemma mapBytes_lower_keeps_ascii (s : string) :
  strings.isASCII s = true ->
  strings.isASCII (strings.mapBytes strings.lowerByte s) = true.
Proof.
  induction s as [|a s IH]; simpl; [reflexivity|].
  intros H. apply andb_prop in H. destruct H as [Ha Hs].
  now rewrite (lowerByte_keeps_ascii _ Ha), (IH Hs).
Qed.

Lemma mapBytes_lower_idempotent (s : string) :
  strings.mapBytes strings.lowerByte (strings.mapBytes strings.lowerByte s)
  = strings.mapBytes strings.lowerByte s.
Proof.
  induction s as [|a s IH]; simpl; [reflexivity|].
  now rewrite lowerByte_idempotent, IH.
Qed.

Section ResolverMore.

Variable mapUnicodeLower : string -> string.

(** X5.  On ASCII names resolution does not see the case of letters: the
    lowered name is its own lowering, so a name and its lowered spelling ask
    the mapper for the same partial identifier and resolve to the same
    identifier.  Only the error message keeps the spelling that was typed. *)
Theorem GetResourceGVR_ignores_ascii_case (o : HeadOptions) :
  strings.isASCII (oResource o) = true ->
  let o' := setResource (resourceArg mapUnicodeLower o) o in
  resourceArg mapUnicodeLower o' = resourceArg mapUnicodeLower o /\
  gvrToFind mapUnicodeLower o' = gvrToFind mapUnicodeLower o /\
  (forall gvr,
     GetResourceGVR mapUnicodeLower o = Returns (gvr, None) <->
     GetResourceGVR mapUnicodeLower o' = Returns (gvr, None)) /\
  (forall gvr err,
     GetResourceGVR mapUnicodeLower o = Returns (gvr, Some err) ->
     err = Errorf "the server doesn't have a resource type %q" [oResource o]).
Proof.
  intros A. cbv zeta.
  assert (R : resourceArg mapUnicodeLower
                (setResource (resourceArg mapUnicodeLower o) o)
              = resourceArg mapUnicodeLower o).
  { unfold resourceArg, strings.ToLower. cbn [oResource setResource].
    rewrite A, (mapBytes_lower_keeps_ascii _ A).
    apply mapBytes_lower_idempotent. }
  assert (G : gvrToFind mapUnicodeLower
                (setResource (resourceArg mapUnicodeLower o) o)
              = gvrToFind mapUnicodeLower o)
    by (unfold gvrToFind; now rewrite R).
  split; [exact R|]. split; [exact G|]. split.
  - intros gvr. unfold GetResourceGVR. rewrite G. cbn [Mapper setResource].
    destruct (Mapper o) as [m|]; [|split; intros X; discriminate X].
    destruct (ResourceFor m (gvrToFind mapUnicodeLower o));
      split; intros X; try discriminate X; exact X.
  - intros gvr err. unfold GetResourceGVR, ErrNoResourceType.
    destruct (Mapper o) as [m|]; [|intros X; discriminate X].
    destruct (ResourceFor m (gvrToFind mapUnicodeLower o));
      intros X; injection X as _ X; congruence.
Qed.

(** X6.  The partial identifier handed to the mapper never carries a
    version, its group never contains a dot, its resource contains a dot
    only when the group is empty, and the lowered name can be read back from
    it: it is the resource, or the resource, a dot and the group. *)
Theorem gvrToFind_shape (o : HeadOptions) :
  let q := gvrToFind mapUnicodeLower o in
  Version q = "" /\
  strings.Count (Group q) dot = 0%nat /\
  (Group q <> "" -> strings.Count (Resource q) dot = 0%nat) /\
  (resourceArg mapUnicodeLower o = Resource q /\ Group q = "" \/
   resourceArg mapUnicodeLower o = (Resource q ++ "." ++ Group q)%string /\
   strings.Count (resourceArg mapUnicodeLower o) dot = 1%nat).
Proof.
  cbv zeta.
  destruct (Nat.eq_dec (strings.Count (resourceArg mapUnicodeLower o) dot) 1)
    as [E|N].
  - destruct (Count_positive_decompose _ _ _ E) as (x & y & S & Hx & Hy).
    rewrite (gvrToFind_split mapUnicodeLower o x y S Hx Hy).
    cbn [Version Group Resource]. repeat split; auto.
  - rewrite (gvrToFind_unsplit mapUnicodeLower o N).
    cbn [Version Group Resource]. repeat split; auto.
    intros X. now contradiction X.
Qed.

End ResolverMore.

(** ** What [Run] reads, and when it stops before the loop *)

Lemma loop_agrees (w : World) (ns : string) (gvr : GroupVersionResource)
    (c : RESTClient) (fuel : nat) :
  forall tok first o o' tr,
    Limit o = Limit o' -> Selector o = Selector o' ->
    Interactive o = Interactive o' ->
    exists evs r,
      loop w fuel ns gvr c tok first (mkState o tr) = (r, mkState o (tr ++ evs)) /\
      loop w fuel ns gvr c tok first (mkState o' tr) = (r, mkState o' (tr ++ evs)).
Proof.
  induction fuel as [|fuel IH]; intros tok first o o' tr HL HS HI.
  { exists [], OutOfFuel. cbn. rewrite app_nil_r. split; reflexivity. }
  assert (EL : forall t, listOptionsOf o t = listOptionsOf o' t)
    by (intros; unfold listOptionsOf; congruence).
  assert (EG : forall t, getEvent c ns gvr o t = getEvent c ns gvr o' t)
    by (intros; unfold getEvent; now rewrite EL).
  destruct (roundTrip w tr c ns (Resource gvr) (listOptionsOf o tok))
    as [err|table] eqn:F.
  { pose proof F as F'. rewrite EL in F'.
    rewrite (loop_fetch_error w ns gvr c fuel tok first (mkState o tr) err F),
            (loop_fetch_error w ns gvr c fuel tok first (mkState o' tr) err F').
    unfold after. cbn [heapO trace]. rewrite EG.
    do 2 eexists. split; reflexivity. }
  pose proof F as F'. rewrite EL in F'.
  destruct (first && (length (Rows table) =? 0)%nat) eqn:S.
  { apply andb_prop in S. destruct S as [-> S].
    destruct (Rows table) eqn:R; [|discriminate].
    rewrite (loop_no_resources w ns gvr c fuel tok (mkState o tr) table F R),
            (loop_no_resources w ns gvr c fuel tok (mkState o' tr) table F' R).
    unfold after. cbn [heapO trace]. rewrite EG.
    do 2 eexists. split; reflexivity. }
  destruct (printError w (tr ++ [getEvent c ns gvr o tok]) table)
    as [err|] eqn:P.
  { pose proof P as P'. rewrite EG in P'.
    rewrite (loop_print_error w ns gvr c fuel tok first (mkState o tr) table
               F S err P),
            (loop_print_error w ns gvr c fuel tok first (mkState o' tr) table
               F' S err P').
    unfold after. cbn [heapO trace]. rewrite EG.
    do 2 eexists. split; reflexivity. }
  pose proof P as P'. rewrite EG in P'.
  destruct (String.eqb_spec (Continue table) "") as [T|T].
  { rewrite (loop_last_page w ns gvr c fuel tok first (mkState o tr) table
               F S P T),
            (loop_last_page w ns gvr c fuel tok first (mkState o' tr) table
               F' S P' T).
    unfold after. cbn [heapO trace]. rewrite EG, HI.
    do 2 eexists. split; reflexivity. }
  destruct (Interactive o) eqn:I.
  2:{ assert (I' : Interactive o' = false) by congruence.
      rewrite (loop_token_printed w ns gvr c fuel tok first (mkState o tr) table
                 F S P T I),
              (loop_token_printed w ns gvr c fuel tok first (mkState o' tr)
                 table F' S P' T I').
      unfold after. cbn [heapO trace]. rewrite EG.
      do 2 eexists. split; reflexivity. }
  assert (I' : Interactive o' = true) by congruence.
  destruct (stdinRune w (tr ++ [getEvent c ns gvr o tok; EvPrintObj table;
                                EvOut Prompt])) as [err|char] eqn:R.
  { pose proof R as R'. rewrite EG in R'.
    rewrite (loop_read_error w ns gvr c fuel tok first (mkState o tr) table
               F S P T I err R),
            (loop_read_error w ns gvr c fuel tok first (mkState o' tr) table
               F' S P' T I' err R').
    unfold after. cbn [heapO trace]. rewrite EG.
    do 2 eexists. split; reflexivity. }
  pose proof R as R'. rewrite EG in R'.
  destruct (Z.eq_dec char 110) as [->|C].
  2:{ rewrite (loop_read_quit w ns gvr c fuel tok first (mkState o tr) table
                 F S P T I char R C),
              (loop_read_quit w ns gvr c fuel tok first (mkState o' tr) table
                 F' S P' T I' char R' C).
      unfold after. cbn [heapO trace]. rewrite EG.
      do 2 eexists. split; reflexivity. }
  rewrite (loop_read_next w ns gvr c fuel tok first (mkState o tr) table
             F S P T I R),
          (loop_read_next w ns gvr c fuel tok first (mkState o' tr) table
             F' S P' T I' R').
  unfold after. cbn [heapO trace]. rewrite <- EG.
  match goal with |- context [mkState o (tr ++ ?pre)] =>
    destruct (IH (Continue table) false o o' (tr ++ pre) HL HS
              (eq_trans I (eq_sym I')))
      as (evs & r & E & E');
    rewrite E, E'; exists (pre ++ evs), r end.
  rewrite app_assoc. split; reflexivity.
Qed.

Lemma Run_agrees (mapUnicodeLower : string -> string) (w : World)
    (fuel : nat) (o o' : HeadOptions) (tr : list event) :
  sameForRun o o' ->
  exists evs r,
    Run mapUnicodeLower w fuel (mkState o tr) = (r, mkState o (tr ++ evs)) /\
    Run mapUnicodeLower w fuel (mkState o' tr) = (r, mkState o' (tr ++ evs)).
Proof.
  intros (HR & HM & HC & HT & HL & HS & HI & HN).
  assert (Idle : forall r : outcome (option error),
    exists evs r0,
      (r, mkState o tr) = (r0, mkState o (tr ++ evs)) /\
      (r, mkState o' tr) = (r0, mkState o' (tr ++ evs))).
  { intros r. exists [], r. rewrite app_nil_r. split; reflexivity. }
  assert (G : GetResourceGVR mapUnicodeLower o' = GetResourceGVR mapUnicodeLower o).
  { unfold GetResourceGVR, gvrToFind, resourceArg, ErrNoResourceType.
    now rewrite HR, HM. }
  unfold Run. run. rewrite G.
  destruct (GetResourceGVR mapUnicodeLower o) as [[gvr [e|]]| |];
    try apply Idle.
  run. rewrite <- HC.
  destruct (RESTConfig o) as [config|]; [|apply Idle].
  destruct (NewRestClient w config (GroupVersionOf gvr)) as [e|client];
    [apply Idle|].
  run. unfold queriedNamespace in HN. rewrite <- HN, <- HT.
  apply loop_agrees; assumption.
Qed.

Lemma after_inj st evs evs' : after st evs = after st evs' -> evs = evs'.
Proof.
  unfold after. intros H. injection H as H. now apply app_inv_head in H.
Qed.

(** A run either stops before the loop, with no event, or is a run of the
    loop of a session that was set up. *)
Lemma Run_events (mapUnicodeLower : string -> string) (w : World)
    (fuel : nat) (st : state) :
  exists evs r,
    Run mapUnicodeLower w fuel st = (r, after st evs) /\
    (evs = [] /\ r <> OutOfFuel \/
     exists gvr client,
       ready mapUnicodeLower w (heapO st) gvr client /\
       Forall (sessionEvent (heapO st) client (queriedNamespace (heapO st)) gvr)
         evs /\
       runs w (queriedNamespace (heapO st)) gvr client (heapO st) (trace st)
         (ContinueToken (heapO st)) true evs r).
Proof.
  assert (Idle : forall r : outcome (option error), r <> OutOfFuel ->
    exists evs r0,
      (r, st) = (r0, after st evs) /\
      (evs = [] /\ r0 <> OutOfFuel \/
       exists gvr client,
         ready mapUnicodeLower w (heapO st) gvr client /\
         Forall (sessionEvent (heapO st) client (queriedNamespace (heapO st)) gvr)
           evs /\
         runs w (queriedNamespace (heapO st)) gvr client (heapO st) (trace st)
           (ContinueToken (heapO st)) true evs r0)).
  { intros r N. exists [], r. rewrite after_nil. split; [reflexivity|].
    left. now split. }
  destruct (GetResourceGVR mapUnicodeLower (heapO st)) as [[gvr [e|]]| |] eqn:G.
  2:{ destruct (RESTConfig (heapO st)) as [config|] eqn:C.
      - destruct (NewRestClient w config (GroupVersionOf gvr))
          as [e|client] eqn:N.
        + unfold Run. run. rewrite G. run. rewrite C, N.
          apply Idle. discriminate.
        + assert (R : ready mapUnicodeLower w (heapO st) gvr client)
            by (split; [exact G|]; exists config; now split).
          rewrite (Run_enters_loop _ _ _ _ _ _ R).
          destruct (loop_runs w (queriedNamespace (heapO st)) gvr client fuel
                      (ContinueToken (heapO st)) true st) as (evs & r & E & A).
          destruct (loop_frame w (queriedNamespace (heapO st)) gvr client fuel
                      (ContinueToken (heapO st)) true st) as (evs' & E' & B & _).
          rewrite E in E'. cbn [snd] in E'. apply after_inj in E'. subst evs'.
          exists evs, r. split; [exact E|]. right. exists gvr, client.
          split; [exact R|split; [exact B|exact A]].
      - unfold Run. run. rewrite G. run. rewrite C. apply Idle. discriminate. }
  - unfold Run. run. rewrite G. apply Idle. discriminate.
  - unfold Run. run. rewrite G. apply Idle. discriminate.
  - unfold GetResourceGVR in G. destruct (Mapper (heapO st)) as [m|];
      [|discriminate G].
    destruct (ResourceFor m _); discriminate G.
Qed.

(** X7.  [Run] issues no request unless the resource is resolved and the
    client is built: when the mapper refuses the name the run returns the
    resource-type error with the name as typed, when the client cannot be
    built it returns that error, and in both cases the trace is untouched. *)
Theorem Run_stops_before_any_request (mapUnicodeLower : string -> string)
    (w : World) (fuel : nat) (st : state) :
  (forall m e, Mapper (heapO st) = Some m ->
     ResourceFor m (gvrToFind mapUnicodeLower (heapO st)) = inl e ->
     Run mapUnicodeLower w fuel st =
       (Returns (Some (Errorf "the server doesn't have a resource type %q"
                         [oResource (heapO st)])), st)) /\
  (forall gvr config e,
     GetResourceGVR mapUnicodeLower (heapO st) = Returns (gvr, None) ->
     RESTConfig (heapO st) = Some config ->
     clientError w (tableConfig config (GroupVersionOf gvr)) = Some e ->
     Run mapUnicodeLower w fuel st = (Returns (Some e), st)).
Proof.
  split.
  - intros m e M R. unfold Run, GetResourceGVR. run. rewrite M, R. reflexivity.
  - intros gvr config e G C E. unfold Run. run. rewrite G. run.
    rewrite C. unfold NewRestClient, RESTClientFor. rewrite E. reflexivity.
Qed.

(** X8.  What [Run] does depends on its receiver only through the resource
    name, the mapper, the configuration, the starting token, the limit, the
    selector, the interactive flag and the queried namespace: two receivers
    that agree on these give the same result and add the same events.  In
    particular the print flags are never read: the output format chosen
    with [-o] changes nothing of what [Run] requests or prints. *)
Theorem Run_reads_only_its_inputs (mapUnicodeLower : string -> string)
    (w : World) (fuel : nat) (o : HeadOptions) (tr : list event) :
  (forall o', sameForRun o o' ->
     exists evs r,
       Run mapUnicodeLower w fuel (mkState o tr) = (r, mkState o (tr ++ evs)) /\
       Run mapUnicodeLower w fuel (mkState o' tr)
         = (r, mkState o' (tr ++ evs))) /\
  (forall printFlags,
     exists evs r,
       Run mapUnicodeLower w fuel (mkState o tr) = (r, mkState o (tr ++ evs)) /\
       Run mapUnicodeLower w fuel (mkState (setPrintFlags printFlags o) tr)
         = (r, mkState (setPrintFlags printFlags o) (tr ++ evs))).
Proof.
  split.
  - intros o' H. now apply Run_agrees.
  - intros printFlags. apply Run_agrees. repeat split.
Qed.

(** X9.  With [AllNamespaces] set the configured namespace is not used:
    whatever [Namespace] holds, the run gives the same result and the same
    events, and every request is made on the empty namespace. *)
Theorem all_namespaces_overrides_namespace (mapUnicodeLower : string -> string)
    (w : World) (fuel : nat) (o : HeadOptions) (tr : list event)
    (namespace : string) :
  AllNamespaces o = true ->
  exists evs r,
    Run mapUnicodeLower w fuel (mkState o tr) = (r, mkState o (tr ++ evs)) /\
    Run mapUnicodeLower w fuel (mkState (setNamespace namespace o) tr)
      = (r, mkState (setNamespace namespace o) (tr ++ evs)) /\
    forall c ns resource lo, In (EvGet c ns resource lo) evs -> ns = "".
Proof.
  intros A.
  destruct (Run_agrees mapUnicodeLower w fuel o (setNamespace namespace o) tr)
    as (evs & r & E & E').
  { repeat split. unfold queriedNamespace. cbn [AllNamespaces setNamespace].
    now rewrite A. }
  exists evs, r. split; [exact E|]. split; [exact E'|].
  intros c ns resource lo HIn.
  destruct (Run_events mapUnicodeLower w fuel (mkState o tr))
    as (evs' & r' & X & D).
  rewrite E in X. unfold after in X. cbn [heapO trace] in X.
  injection X as Xr Xe. apply app_inv_head in Xe. subst evs' r'.
  destruct D as [[-> _]|(gvr & client & _ & B & _)].
  - destruct HIn.
  - rewrite Forall_forall in B. destruct (B _ HIn) as (_ & -> & _).
    cbn [heapO]. unfold queriedNamespace. now rewrite A.
Qed.

(** ** The shape of the trace of a run *)

Lemma requestsOf_app evs evs' :
  requestsOf (evs ++ evs') = requestsOf evs ++ requestsOf evs'.
Proof.
  induction evs as [|e evs IH]; [reflexivity|].
  destruct e; simpl; now rewrite IH.
Qed.

Lemma printedOf_app evs evs' :
  printedOf (evs ++ evs') = printedOf evs ++ printedOf evs'.
Proof.
  induction evs as [|e evs IH]; [reflexivity|].
  destruct e; simpl; now rewrite IH.
Qed.

Lemma readsOf_app evs evs' : readsOf (evs ++ evs') = (readsOf evs + readsOf evs')%nat.
Proof. unfold readsOf. now rewrite filter_app, length_app. Qed.

Section RunsInvariants.

Variable w : World.
Variables (ns : string) (gvr : GroupVersionResource) (c : RESTClient).
Variable o : HeadOptions.

Lemma runs_counts tr tok first evs r :
  runs w ns gvr c o tr tok first evs r ->
  (length (requestsOf evs) <= S (readsOf evs))%nat /\
  (readsOf evs <= length (printedOf evs))%nat /\
  (length (printedOf evs) <= length (requestsOf evs))%nat /\
  (r <> OutOfFuel -> 1 <= length (requestsOf evs))%nat.
Proof.
  induction 1;
    try (repeat split; cbn; intros; try lia; congruence).
  - destruct (Interactive o); repeat split; cbn; intros; lia.
  - destruct IHruns as (A & B & C & D).
    rewrite requestsOf_app, printedOf_app, readsOf_app, !length_app.
    cbn. repeat split; intros; lia.
Qed.

Lemma runs_chained tr tok first evs r :
  runs w ns gvr c o tr tok first evs r ->
  chained tok evs /\
  match requestsOf evs with
  | [] => True
  | lo :: rest =>
      loContinue lo = tok /\ Forall (fun lo' => loContinue lo' <> "") rest
  end.
Proof.
  induction 1; try (cbn; repeat split; auto; fail).
  - destruct (Interactive o); cbn; repeat split; auto.
  - destruct IHruns as (A & B). cbn. repeat split; auto.
    destruct (requestsOf evs) as [|lo rest]; [constructor|].
    destruct B as (B1 & B2). constructor; [congruence|exact B2].
Qed.

Lemma runs_noninteractive tr tok first evs r :
  Interactive o = false ->
  runs w ns gvr c o tr tok first evs r ->
  silent evs /\ (length (requestsOf evs) <= 1)%nat.
Proof.
  intros I. unfold silent.
  assert (P : EvOut Prompt <> EvOut NoResourcesLine) by discriminate.
  assert (Q : forall t, EvOut Prompt <> EvOut (ContinueTokenLine t))
    by (intros t; discriminate).
  destruct 1; try congruence; rewrite ?I;
    (split; [|cbn; lia]); unfold getEvent; intros e HIn; cbn in HIn.
  all: repeat (destruct HIn as [<-|HIn]); try destruct HIn;
    repeat split; try discriminate;
    try (intros X; now apply P);
    try (intros X; now apply (Q _) in X).
Qed.

(** With [Interactive] off one pass through the loop body always ends the
    loop. *)
Lemma loop_one_pass fuel tok first st :
  heapO st = o -> Interactive o = false ->
  loop w (S fuel) ns gvr c tok first st = loop w 1 ns gvr c tok first st /\
  fst (loop w 1 ns gvr c tok first st) <> OutOfFuel.
Proof.
  intros <- I.
  destruct (roundTrip w (trace st) c ns (Resource gvr)
              (listOptionsOf (heapO st) tok)) as [err|table] eqn:F.
  { rewrite !(loop_fetch_error _ _ _ _ _ _ _ _ _ F). split; [reflexivity|].
    discriminate. }
  destruct (first && (length (Rows table) =? 0)%nat) eqn:S.
  { apply andb_prop in S. destruct S as [-> S].
    destruct (Rows table) eqn:R; [|discriminate].
    rewrite !(loop_no_resources _ _ _ _ _ _ _ _ F R). split; [reflexivity|].
    discriminate. }
  destruct (printError w (trace st ++ [getEvent c ns gvr (heapO st) tok]) table)
    as [err|] eqn:P.
  { rewrite !(loop_print_error _ _ _ _ _ _ _ _ _ F S _ P). split; [reflexivity|].
    discriminate. }
  destruct (String.eqb_spec (Continue table) "") as [T|T].
  { rewrite !(loop_last_page _ _ _ _ _ _ _ _ _ F S P T). split; [reflexivity|].
    discriminate. }
  rewrite !(loop_token_printed _ _ _ _ _ _ _ _ _ F S P T I).
  split; [reflexivity|]. discriminate.
Qed.

End RunsInvariants.

(** ** What every run keeps to *)

(** Either the session is set up, or [Run] stops at once, whatever the bound
    of the loop. *)
Lemma Run_setup (mapUnicodeLower : string -> string) (w : World) (st : state) :
  (exists gvr client, ready mapUnicodeLower w (heapO st) gvr client) \/
  (exists r, r <> OutOfFuel /\
             forall fuel, Run mapUnicodeLower w fuel st = (r, st)).
Proof.
  destruct (GetResourceGVR mapUnicodeLower (heapO st)) as [[gvr [e|]]| |] eqn:G.
  2:{ destruct (RESTConfig (heapO st)) as [config|] eqn:C.
      - destruct (NewRestClient w config (GroupVersionOf gvr))
          as [e|client] eqn:N.
        + right. exists (Returns (Some e)). split; [discriminate|].
          intros fuel. unfold Run. run. rewrite G. run. now rewrite C, N.
        + left. exists gvr, client. split; [exact G|].
          exists config. now split.
      - right. exists Panic. split; [discriminate|].
        intros fuel. unfold Run. run. rewrite G. run. now rewrite C. }
  - right. exists (Returns (Some e)). split; [discriminate|].
    intros fuel. unfold Run. run. now rewrite G.
  - right. exists Panic. split; [discriminate|].
    intros fuel. unfold Run. run. now rewrite G.
  - unfold GetResourceGVR in G. destruct (Mapper (heapO st)) as [m|];
      [|discriminate G].
    destruct (ResourceFor m _); discriminate G.
Qed.

(** X10.  In every run a request beyond the first is paid for by one read
    of the input, a read happens only after a page was printed, and a page
    is printed only after it was requested: requests are at most reads plus
    one, reads at most printed pages, printed pages at most requests. *)
Theorem Run_requests_follow_reads (mapUnicodeLower : string -> string)
    (w : World) (fuel : nat) (st : state) :
  exists evs r,
    Run mapUnicodeLower w fuel st = (r, after st evs) /\
    (length (requestsOf evs) <= S (readsOf evs))%nat /\
    (readsOf evs <= length (printedOf evs))%nat /\
    (length (printedOf evs) <= length (requestsOf evs))%nat.
Proof.
  destruct (Run_events mapUnicodeLower w fuel st)
    as (evs & r & E & [[-> _]|(gvr & client & _ & _ & R)]).
  - exists [], r. split; [exact E|]. cbn. repeat split; lia.
  - exists evs, r. split; [exact E|].
    destruct (runs_counts _ _ _ _ _ _ _ _ _ _ R) as (A & B & C & _).
    repeat split; assumption.
Qed.

(** X11.  The token a request carries is the one of the page printed just
    before it, and the starting token when no page was printed yet; after
    the first request of a run no request carries the empty token, so a run
    never starts the collection over. *)
Theorem Run_chains_tokens (mapUnicodeLower : string -> string)
    (w : World) (fuel : nat) (st : state) :
  exists evs r,
    Run mapUnicodeLower w fuel st = (r, after st evs) /\
    chained (ContinueToken (heapO st)) evs /\
    match requestsOf evs with
    | [] => True
    | lo :: rest =>
        loContinue lo = ContinueToken (heapO st) /\
        Forall (fun lo' => loContinue lo' <> "") rest
    end.
Proof.
  destruct (Run_events mapUnicodeLower w fuel st)
    as (evs & r & E & [[-> _]|(gvr & client & _ & _ & R)]).
  - exists [], r. split; [exact E|]. cbn. auto.
  - exists evs, r. split; [exact E|].
    exact (runs_chained _ _ _ _ _ _ _ _ _ _ R).
Qed.

(** X12.  A non-interactive run is one shot: it ends within one pass of the
    loop whatever bound the loop is given, it makes at most one request, and
    it never prompts, never reads the input and writes nothing to the
    standard output. *)
Theorem noninteractive_Run_is_one_shot (mapUnicodeLower : string -> string)
    (w : World) (fuel : nat) (st : state) :
  Interactive (heapO st) = false ->
  Run mapUnicodeLower w (S fuel) st = Run mapUnicodeLower w 1 st /\
  fst (Run mapUnicodeLower w 1 st) <> OutOfFuel /\
  exists evs,
    snd (Run mapUnicodeLower w 1 st) = after st evs /\
    silent evs /\ (length (requestsOf evs) <= 1)%nat.
Proof.
  intros I.
  assert (Tail : exists evs,
    snd (Run mapUnicodeLower w 1 st) = after st evs /\
    silent evs /\ (length (requestsOf evs) <= 1)%nat).
  { destruct (Run_events mapUnicodeLower w 1 st)
      as (evs & r & E & [[-> _]|(gvr & client & _ & _ & R)]).
    - exists []. rewrite E. split; [reflexivity|].
      split; [intros e []|cbn; lia].
    - exists evs. rewrite E. split; [reflexivity|].
      exact (runs_noninteractive _ _ _ _ _ _ _ _ _ _ I R). }
  destruct (Run_setup mapUnicodeLower w st)
    as [(gvr & client & R)|(r & N & E)].
  - rewrite (Run_enters_loop _ _ _ _ _ _ R) in Tail.
    rewrite !(Run_enters_loop _ _ _ _ _ _ R).
    destruct (loop_one_pass w (queriedNamespace (heapO st)) gvr client
                (heapO st) fuel (ContinueToken (heapO st)) true st eq_refl I)
      as (A & B).
    split; [exact A|]. split; [exact B|exact Tail].
  - rewrite !E. cbn [fst]. split; [reflexivity|]. split; [exact N|].
    rewrite E in Tail. exact Tail.
Qed.

(** X13.  When the printer fails on a page the run returns the printer's
    error at once: the request and the attempt to print are the last events,
    so no token is printed, no prompt is shown and no request follows. *)
Theorem print_error_is_fatal (w : World) (fuel : nat) (ns : string)
    (gvr : GroupVersionResource) (c : RESTClient) (tok : string)
    (first : bool) (st : state) (table : Table) (err : error) :
  let get := getEvent c ns gvr (heapO st) tok in
  roundTrip w (trace st) c ns (Resource gvr) (listOptionsOf (heapO st) tok)
    = inr table ->
  rendered first table ->
  printError w (trace st ++ [get]) table = Some err ->
  loop w (S fuel) ns gvr c tok first st =
    (Returns (Some err), after st [get; EvPrintObj table]) /\
  (forall mapUnicodeLower,
     ready mapUnicodeLower w (heapO st) gvr c ->
     ns = queriedNamespace (heapO st) -> tok = ContinueToken (heapO st) ->
     first = true ->
     Run mapUnicodeLower w (S fuel) st =
       (Returns (Some err), after st [get; EvPrintObj table])).
Proof.
  cbv zeta. intros F S P. split.
  - now apply loop_print_error.
  - intros mapUnicodeLower R -> -> ->.
    rewrite (Run_enters_loop _ _ _ _ _ _ R). now apply loop_print_error.
Qed.

Lemma readsOf_asked tr get table :
  isReadRune get = false ->
  readsOf (tr ++ [get; EvPrintObj table; EvOut Prompt]) = readsOf tr.
Proof. intros G. rewrite readsOf_app. unfold readsOf. cbn. rewrite G. cbn. lia. Qed.

Lemma readsOf_answered tr get table :
  isReadRune get = false ->
  readsOf (tr ++ [get; EvPrintObj table; EvOut Prompt; EvReadRune; EvStdout nl])
  = S (readsOf tr).
Proof. intros G. rewrite readsOf_app. unfold readsOf. cbn. rewrite G. cbn. lia. Qed.

Lemma loop_ends_on_finite_input (w : World) (ns : string)
    (gvr : GroupVersionResource) (c : RESTClient) (k : nat) :
  (forall tr, (k <= readsOf tr)%nat -> stdinRune w tr <> inr 110%Z) ->
  forall fuel tok first st,
    (k <= readsOf (trace st) + fuel)%nat ->
    fst (loop w (S fuel) ns gvr c tok first st) <> OutOfFuel.
Proof.
  intros H. induction fuel as [|fuel IH]; intros tok first st K.
  all: destruct (roundTrip w (trace st) c ns (Resource gvr)
                   (listOptionsOf (heapO st) tok)) as [err|table] eqn:F;
    [rewrite (loop_fetch_error _ _ _ _ _ _ _ _ _ F); discriminate|].
  all: destruct (first && (length (Rows table) =? 0)%nat) eqn:S;
    [apply andb_prop in S; destruct S as [-> S];
     destruct (Rows table) eqn:R; [|discriminate];
     rewrite (loop_no_resources _ _ _ _ _ _ _ _ F R); discriminate|].
  all: destruct (printError w (trace st ++ [getEvent c ns gvr (heapO st) tok])
                   table) as [err|] eqn:P;
    [rewrite (loop_print_error _ _ _ _ _ _ _ _ _ F S _ P); discriminate|].
  all: destruct (String.eqb_spec (Continue table) "") as [T|T];
    [rewrite (loop_last_page _ _ _ _ _ _ _ _ _ F S P T); discriminate|].
  all: destruct (Interactive (heapO st)) eqn:I;
    [|rewrite (loop_token_printed _ _ _ _ _ _ _ _ _ F S P T I); discriminate].
  all: destruct (stdinRune w (trace st ++ [getEvent c ns gvr (heapO st) tok;
                                           EvPrintObj table; EvOut Prompt]))
         as [err|char] eqn:R;
    [rewrite (loop_read_error _ _ _ _ _ _ _ _ _ F S P T I _ R); discriminate|].
  all: destruct (Z.eq_dec char 110) as [->|C];
    [|rewrite (loop_read_quit _ _ _ _ _ _ _ _ _ F S P T I _ R C); discriminate].
  - exfalso. apply (H _) in R; [exact R|].
    rewrite readsOf_asked by reflexivity. lia.
  - rewrite (loop_read_next _ _ _ _ _ _ _ _ _ F S P T I R).
    apply IH. unfold after. cbn [trace].
    rewrite readsOf_answered by reflexivity. lia.
Qed.

(** X14.  A run ends when the input does: if the input stream never answers
    ['n'] once [k] reads have been made, a loop bound of [k + 1] passes is
    enough for [Run] to return (or panic), whatever the server answers. *)
Theorem Run_ends_on_finite_input (mapUnicodeLower : string -> string)
    (w : World) (k fuel : nat) (st : state) :
  (forall tr, (k <= readsOf tr)%nat -> stdinRune w tr <> inr 110%Z) ->
  (k <= readsOf (trace st) + fuel)%nat ->
  fst (Run mapUnicodeLower w (S fuel) st) <> OutOfFuel.
Proof.
  intros H K.
  destruct (Run_setup mapUnicodeLower w st)
    as [(gvr & client & R)|(r & N & E)].
  - rewrite (Run_enters_loop _ _ _ _ _ _ R).
    now apply loop_ends_on_finite_input with k.
  - now rewrite E.
Qed.

(** ** [Complete] *)

Lemma Complete_frame (w : World) (resource : string) (st : state) :
  let st' := snd (Complete w resource st) in
  trace st' = trace st /\
  oResource (heapO st') = resource /\
  Limit (heapO st') = Limit (heapO st) /\
  ContinueToken (heapO st') = ContinueToken (heapO st) /\
  Interactive (heapO st') = Interactive (heapO st) /\
  Selector (heapO st') = Selector (heapO st) /\
  AllNamespaces (heapO st') = AllNamespaces (heapO st) /\
  PrintFlags (heapO st') = PrintFlags (heapO st) /\
  ConfigFlags (heapO st') = ConfigFlags (heapO st).
Proof.
  cbv zeta. complete_cases w st; repeat split; auto.
Qed.

Lemma Complete_success_fields (w : World) (resource : string) (st : state)
    (cf : ConfigFlagsT) :
  ConfigFlags (heapO st) = Some cf ->
  fst (Complete w resource st) = Returns None ->
  snd (ToRESTMapper cf) = None /\
  Mapper (heapO (snd (Complete w resource st))) = fst (ToRESTMapper cf) /\
  exists config, RESTConfig (heapO (snd (Complete w resource st))) = Some config.
Proof.
  intros C. revert C.
  complete_cases w st; intros C X; try discriminate X; injection C as <-.
  repeat split; auto. eexists; reflexivity.
Qed.

Lemma Validate_reads_four_fields (o o' : HeadOptions) :
  Limit o' = Limit o -> ContinueToken o' = ContinueToken o ->
  Interactive o' = Interactive o -> PrintFlags o' = PrintFlags o ->
  Validate o' = Validate o.
Proof.
  intros L T I P. unfold Validate, derefOutputFormat. now rewrite L, T, I, P.
Qed.

Lemma Validate_after_Complete (w : World) (resource : string) (st : state) :
  Validate (heapO (snd (Complete w resource st))) = Validate (heapO st).
Proof.
  destruct (Complete_frame w resource st)
    as (_ & _ & L & T & I & _ & _ & P & _).
  now apply Validate_reads_four_fields.
Qed.

(** X16.  [Complete] makes no request and leaves the flags alone: the trace,
    the limit, the continuation token, the interactive flag, the selector,
    the all-namespaces flag and both flag sets are what they were, whether
    it succeeds, fails or panics, so the verdict of [Validate] is the same
    before and after; the resource name is stored in any case. *)
Theorem Complete_leaves_flags_alone (w : World) (resource : string)
    (st : state) :
  let st' := snd (Complete w resource st) in
  trace st' = trace st /\
  oResource (heapO st') = resource /\
  Limit (heapO st') = Limit (heapO st) /\
  ContinueToken (heapO st') = ContinueToken (heapO st) /\
  Interactive (heapO st') = Interactive (heapO st) /\
  Selector (heapO st') = Selector (heapO st) /\
  AllNamespaces (heapO st') = AllNamespaces (heapO st) /\
  PrintFlags (heapO st') = PrintFlags (heapO st) /\
  ConfigFlags (heapO st') = ConfigFlags (heapO st) /\
  Validate (heapO st') = Validate (heapO st).
Proof.
  cbv zeta.
  destruct (Complete_frame w resource st) as (A & B & C & D & E & F & G & H & I).
  repeat split; auto. apply Validate_after_Complete.
Qed.

(** X17.  [Complete] returns no error exactly when the three loaders and the
    dynamic client all succeed; the mapper, the namespace, the configuration
    and a dynamic client built from that configuration are then the ones in
    the options. *)
Theorem Complete_succeeds_iff (w : World) (resource : string) (st : state) :
  let st' := snd (Complete w resource st) in
  fst (Complete w resource st) = Returns None <->
  exists cf config,
    ConfigFlags (heapO st) = Some cf /\
    snd (ToRESTMapper cf) = None /\ snd (RawNamespace cf) = None /\
    ToRESTConfig cf = (Some config, None) /\ dynamicError w config = None /\
    Mapper (heapO st') = fst (ToRESTMapper cf) /\
    Namespace (heapO st') = fst (RawNamespace cf) /\
    RESTConfig (heapO st') = Some config /\
    DynamicClient (heapO st') = Some (mkDynamic config).
Proof.
  cbv zeta. split.
  - complete_cases w st; intros X; try discriminate X.
    exists cf, config. repeat split; auto.
    destruct (ToRESTConfig cf) as [a b]. cbn in *. congruence.
  - intros (cf & config & C & M & N & R & D & _).
    revert C M N R D. complete_cases w st; intros C M N R D;
      try congruence;
      injection C as <-; rewrite R in *; cbn in *; congruence.
Qed.

(** X18.  [Complete] stops at the first loader that fails and returns its
    error; what that loader returned is stored all the same, and the fields
    of the later steps keep their old values. *)
Theorem Complete_stops_at_first_error (w : World) (resource : string)
    (st : state) (cf : ConfigFlagsT) (e : error) :
  let st' := snd (Complete w resource st) in
  ConfigFlags (heapO st) = Some cf ->
  (snd (ToRESTMapper cf) = Some e ->
     fst (Complete w resource st) = Returns (Some e) /\
     Mapper (heapO st') = fst (ToRESTMapper cf) /\
     Namespace (heapO st') = Namespace (heapO st) /\
     RESTConfig (heapO st') = RESTConfig (heapO st) /\
     DynamicClient (heapO st') = DynamicClient (heapO st)) /\
  (snd (ToRESTMapper cf) = None -> snd (RawNamespace cf) = Some e ->
     fst (Complete w resource st) = Returns (Some e) /\
     Mapper (heapO st') = fst (ToRESTMapper cf) /\
     Namespace (heapO st') = fst (RawNamespace cf) /\
     RESTConfig (heapO st') = RESTConfig (heapO st) /\
     DynamicClient (heapO st') = DynamicClient (heapO st)) /\
  (snd (ToRESTMapper cf) = None -> snd (RawNamespace cf) = None ->
   snd (ToRESTConfig cf) = Some e ->
     fst (Complete w resource st) = Returns (Some e) /\
     RESTConfig (heapO st') = fst (ToRESTConfig cf) /\
     DynamicClient (heapO st') = DynamicClient (heapO st)) /\
  (forall config,
   snd (ToRESTMapper cf) = None -> snd (RawNamespace cf) = None ->
   ToRESTConfig cf = (Some config, None) -> dynamicError w config = Some e ->
     fst (Complete w resource st) = Returns (Some e) /\
     RESTConfig (heapO st') = Some config /\
     DynamicClient (heapO st') = None).
Proof.
  cbv zeta. intros C. revert C.
  complete_cases w st; intros C; try discriminate C; injection C as <-;
    (split; [|split; [|split]]);
    try (intros config' M N R D);
    try (intros M N R); try (intros M N); try (intros M);
    try congruence;
    try (rewrite R in *; cbn in *; try congruence);
    repeat split; try congruence.
  all: injection R as -> ->; try discriminate; congruence.
Qed.

(** ** The command as a whole *)

Lemma Validate_accepted (o : HeadOptions) :
  Validate o = Returns None ->
  (0 < Limit o)%Z /\ (Interactive o = true -> ContinueToken o = "").
Proof.
  unfold Validate.
  destruct (Z.leb_spec (Limit o) 0); [discriminate|].
  destruct (Interactive o); [|intros _; split; [assumption|discriminate]].
  destruct (String.eqb_spec (ContinueToken o) ""); [|discriminate].
  intros _. split; auto.
Qed.

Lemma Validate_outcomes (o : HeadOptions) :
  Validate o <> OutOfFuel /\
  (Validate o = Panic -> Interactive o = true /\ derefOutputFormat o = None).
Proof.
  validate_cases o; split; intros X; try discriminate X; auto.
Qed.

Lemma requests_of_session o c ns gvr evs :
  Forall (sessionEvent o c ns gvr) evs ->
  Forall (fun lo => loLimit lo = Limit o /\ loLabelSelector lo = Selector o)
    (requestsOf evs).
Proof.
  induction 1 as [|e evs H _ IH]; [constructor|].
  destruct e; cbn; try exact IH.
  constructor; [|exact IH]. cbn in H. tauto.
Qed.

Lemma runs_never_panic w ns gvr c o tr tok first evs r :
  runs w ns gvr c o tr tok first evs r -> r <> Panic.
Proof. induction 1; try discriminate; assumption. Qed.

Section CommandFacts.

Variable mapUnicodeLower : string -> string.
Variable w : World.

(** [RunE] on one argument: [Complete], then [Validate], then [Run], the
    first error ending it. *)
Lemma RunE_one_argument fuel a st :
  RunE mapUnicodeLower w fuel [a] st =
    match Complete w a st with
    | (Returns None, st1) =>
        match Validate (heapO st1) with
        | Returns None => Run mapUnicodeLower w fuel st1
        | Returns (Some e) => (Returns (Some e), st1)
        | Panic => (Panic, st1)
        | OutOfFuel => (OutOfFuel, st1)
        end
    | (r, st1) => (r, st1)
    end.
Proof.
  unfold RunE. cbn [length Nat.eqb Nat.ltb Nat.leb nth]. unfold bind at 1.
  destruct (Complete w a st) as [[[e|]| |] st1]; try reflexivity.
  unfold bind at 1, call. cbn [heapO].
  destruct (Validate (heapO st1)) as [[e|]| |]; try reflexivity.
  unfold bind, ret.
  destruct (Run mapUnicodeLower w fuel st1) as [[[e|]| |] st2]; reflexivity.
Qed.

Lemma RunE_argument_error fuel args st :
  length args <> 1%nat ->
  RunE mapUnicodeLower w fuel args st =
    (Returns (Some (if (length args =? 0)%nat then ErrNoArgument
                    else ErrTooManyArguments)), st).
Proof.
  intros N. unfold RunE.
  destruct args as [|a [|b rest]]; [reflexivity| |reflexivity].
  now contradiction N.
Qed.

(** X19.  Without exactly one argument [RunE] returns its own error and does
    nothing else: the options are not completed and nothing is requested or
    written. *)
Theorem RunE_wants_one_argument (fuel : nat) (args : list string)
    (st : state) :
  length args <> 1%nat ->
  RunE mapUnicodeLower w fuel args st =
    (Returns (Some (if (length args =? 0)%nat then ErrNoArgument
                    else ErrTooManyArguments)), st).
Proof. apply RunE_argument_error. Qed.

(** X20.  Every request that [RunE] makes was validated: it happens only
    when [Validate] accepts the options as parsed, it carries their limit,
    which is positive, and their selector, and in an interactive session the
    first request carries the empty token. *)
Theorem RunE_requests_are_validated (fuel : nat) (args : list string)
    (st : state) :
  exists evs,
    trace (snd (RunE mapUnicodeLower w fuel args st)) = trace st ++ evs /\
    (evs <> [] -> Validate (heapO st) = Returns None) /\
    Forall (fun lo => (0 < loLimit lo)%Z /\ loLimit lo = Limit (heapO st) /\
                      loLabelSelector lo = Selector (heapO st))
      (requestsOf evs) /\
    (Interactive (heapO st) = true ->
     forall lo rest, requestsOf evs = lo :: rest -> loContinue lo = "").
Proof.
  assert (Idle : forall st1 : state, trace st1 = trace st ->
    exists evs,
      trace st1 = trace st ++ evs /\
      (evs <> [] -> Validate (heapO st) = Returns None) /\
      Forall (fun lo => (0 < loLimit lo)%Z /\ loLimit lo = Limit (heapO st) /\
                        loLabelSelector lo = Selector (heapO st))
        (requestsOf evs) /\
      (Interactive (heapO st) = true ->
       forall lo rest, requestsOf evs = lo :: rest -> loContinue lo = "")).
  { intros st1 E. exists []. rewrite app_nil_r. split; [exact E|].
    split; [intros X; now contradiction X|]. split; [constructor|].
    intros _ lo rest X. discriminate X. }
  destruct (Nat.eq_dec (length args) 1) as [L|L].
  2:{ rewrite (RunE_argument_error fuel args st L). now apply Idle. }
  destruct args as [|a [|b rest]]; try discriminate L.
  rewrite RunE_one_argument.
  destruct (Complete_frame w a st)
    as (T & _ & HL & HT & HI & HS & _).
  pose proof (Validate_after_Complete w a st) as V.
  destruct (Complete w a st) as [r st1]. cbn [snd] in *.
  destruct r as [[e|]| |]; try (now apply Idle).
  destruct (Validate (heapO st1)) as [[e|]| |] eqn:V1; try (now apply Idle).
  destruct (Validate_accepted _ V1) as (Pos & Tok).
  destruct (Run_events mapUnicodeLower w fuel st1)
    as (evs & r & E & D).
  rewrite E. exists evs. cbn [snd after trace]. rewrite T.
  split; [reflexivity|]. split; [intros _; now rewrite <- V|].
  destruct D as [[-> _]|(gvr & client & _ & B & R)].
  { split; [constructor|]. intros _ lo rest X. discriminate X. }
  split.
  - apply requests_of_session in B. rewrite Forall_forall in *.
    intros lo HIn. destruct (B lo HIn) as (B1 & B2).
    repeat split; congruence.
  - intros I lo rest X.
    destruct (runs_chained _ _ _ _ _ _ _ _ _ _ R) as (_ & C).
    rewrite X in C. destruct C as (C & _). rewrite C. apply Tok. congruence.
Qed.

(** X21.  Options that [Validate] rejects never reach the server: when
    [Complete] succeeds [RunE] returns the error of [Validate], and in any
    case the trace is the one it started with. *)
Theorem RunE_rejects_before_any_request (fuel : nat) (a : string)
    (st : state) (e : error) :
  Validate (heapO st) = Returns (Some e) ->
  trace (snd (RunE mapUnicodeLower w fuel [a] st)) = trace st /\
  fst (RunE mapUnicodeLower w fuel [a] st) <> Returns None /\
  (fst (Complete w a st) = Returns None ->
   RunE mapUnicodeLower w fuel [a] st =
     (Returns (Some e), snd (Complete w a st))).
Proof.
  intros V. rewrite RunE_one_argument.
  destruct (Complete_frame w a st) as (T & _).
  pose proof (Validate_after_Complete w a st) as V1. rewrite V in V1.
  destruct (Complete w a st) as [r st1]. cbn [fst snd] in *.
  destruct r as [[e'|]| |]; cbn [fst snd];
    try (split; [exact T|split; [discriminate|intros X; discriminate X]]).
  rewrite V1. cbn [fst snd].
  split; [exact T|]. split; [discriminate|]. reflexivity.
Qed.

(** X22.  [RunE] does not panic on options whose config flags are there,
    whose loaders give a mapper and a configuration when they give no error,
    and whose output format can be read when the session is interactive, as
    is the case of the options of [NewHeadOptions]. *)
Theorem RunE_never_panics (fuel : nat) (args : list string) (st : state)
    (cf : ConfigFlagsT) :
  ConfigFlags (heapO st) = Some cf ->
  loadersBehave cf ->
  (Interactive (heapO st) = true -> derefOutputFormat (heapO st) <> None) ->
  fst (RunE mapUnicodeLower w fuel args st) <> Panic.
Proof.
  intros C (LM & LC) F.
  destruct (Nat.eq_dec (length args) 1) as [L|L].
  2:{ rewrite (RunE_argument_error fuel args st L). discriminate. }
  destruct args as [|a [|b rest]]; try discriminate L.
  rewrite RunE_one_argument.
  pose proof (Validate_after_Complete w a st) as V.
  pose proof (Complete_success_fields w a st cf C) as S.
  assert (NP : fst (Complete w a st) <> Panic).
  { revert C LC. clear. complete_cases w st; intros C LC; try discriminate.
    injection C as <-. exfalso. apply LC; assumption. }
  destruct (Complete w a st) as [r st1]. cbn [fst snd] in *.
  destruct r as [[e|]| |]; try discriminate; try (now elim NP).
  destruct (S eq_refl) as (M & HM & config & HC).
  destruct (Validate_outcomes (heapO st)) as (NF & NPanic).
  rewrite <- V in NF, NPanic.
  destruct (Validate (heapO st1)) as [[e|]| |] eqn:V1; try discriminate.
  2:{ exfalso. destruct (NPanic eq_refl) as (I & D). now apply F. }
  destruct (fst (ToRESTMapper cf)) as [m|] eqn:Hm; [|now elim (LM M)].
  destruct (Run_setup mapUnicodeLower w st1)
    as [(gvr & client & R)|(r & _ & E)].
  - rewrite (Run_enters_loop _ _ _ _ _ _ R).
    destruct (loop_runs w (queriedNamespace (heapO st1)) gvr client fuel
                (ContinueToken (heapO st1)) true st1) as (evs & r & E & A).
    rewrite E. cbn [fst]. exact (runs_never_panic _ _ _ _ _ _ _ _ _ _ A).
  - rewrite (E fuel). cbn [fst]. specialize (E 0%nat).
    unfold Run, GetResourceGVR in E. run. rewrite HM in E.
    destruct (ResourceFor m _); run.
    + apply (f_equal fst) in E. cbn [fst] in E. rewrite <- E. discriminate.
    + rewrite HC in E.
      destruct (NewRestClient w config _) as [e|client].
      * apply (f_equal fst) in E. cbn [fst] in E. rewrite <- E. discriminate.
      * run. apply (f_equal fst) in E. cbn [fst] in E. rewrite <- E.
        discriminate.
Qed.

End CommandFacts.

(** ** Resolution and transport inside a run *)

(** X15.  Every request of a run names the resource as the mapper resolved
    it, not as it was typed, and goes through the client built for the
    resolved group and version: the accept header asks for tables and the
    path is ["/api"] for the core group and ["/apis"] otherwise. *)
Theorem Run_requests_use_resolved_resource
    (mapUnicodeLower : string -> string) (w : World) (fuel : nat)
    (st : state) :
  exists evs r,
    Run mapUnicodeLower w fuel st = (r, after st evs) /\
    forall c ns resource lo, In (EvGet c ns resource lo) evs ->
      exists gvr config,
        GetResourceGVR mapUnicodeLower (heapO st) = Returns (gvr, None) /\
        RESTConfig (heapO st) = Some config /\
        resource = Resource gvr /\
        clientConfig c = tableConfig config (GroupVersionOf gvr) /\
        AcceptContentTypes (clientConfig c) = TableAccept /\
        APIPath (clientConfig c) = (if Group gvr =? "" then "/api" else "/apis").
Proof.
  destruct (Run_events mapUnicodeLower w fuel st)
    as (evs & r & E & [[-> _]|(gvr & client & R & B & _)]).
  - exists [], r. split; [exact E|]. intros ? ? ? ? [].
  - exists evs, r. split; [exact E|].
    intros c ns resource lo HIn.
    rewrite Forall_forall in B. destruct (B _ HIn) as (-> & _ & -> & _).
    destruct R as (G & config & C & N).
    exists gvr, config.
    unfold NewRestClient, RESTClientFor in N.
    destruct (clientError w _); [discriminate N|]. injection N as <-.
    cbn [clientConfig].
    split; [exact G|]. split; [exact C|]. split; [reflexivity|].
    split; [reflexivity|]. split.
    + unfold tableConfig. destruct (gvGroup _ =? ""); reflexivity.
    + unfold tableConfig, GroupVersionOf. cbn [gvGroup].
      destruct (Group gvr =? ""); reflexivity.
Qed.

(** X23.  The fake mapper of the tests looks at the group of the query
    only: with no error configured it resolves every name that is not of
    the form [x.g] to its identifier, and a name [x.g] exactly when [g] is
    empty or is its group; with an error configured it refuses every name.
    A refusal reaches the caller as the resource-type error. *)
Theorem fake_mapper_checks_group_only (mapUnicodeLower : string -> string)
    (gvr : GroupVersionResource) (o : HeadOptions) :
  let refused :=
    Returns (emptyGVR,
             Some (Errorf "the server doesn't have a resource type %q"
                     [oResource o])) in
  (forall e, Mapper o = Some (fakeRESTMapperImpl gvr (Some e)) ->
     GetResourceGVR mapUnicodeLower o = refused) /\
  (Mapper o = Some (fakeRESTMapperImpl gvr None) ->
   (strings.Count (resourceArg mapUnicodeLower o) dot <> 1%nat ->
      GetResourceGVR mapUnicodeLower o = Returns (gvr, None)) /\
   (forall x g,
      resourceArg mapUnicodeLower o = (x ++ "." ++ g)%string ->
      strings.Count x dot = 0%nat -> strings.Count g dot = 0%nat ->
      (g = "" \/ g = Group gvr ->
         GetResourceGVR mapUnicodeLower o = Returns (gvr, None)) /\
      (g <> "" -> g <> Group gvr ->
         GetResourceGVR mapUnicodeLower o = refused))).
Proof.
  cbv zeta. split.
  - intros e M. unfold GetResourceGVR. rewrite M. reflexivity.
  - intros M. split.
    + intros N. unfold GetResourceGVR.
      rewrite M, (gvrToFind_unsplit mapUnicodeLower o N). reflexivity.
    + intros x g E Hx Hg. unfold GetResourceGVR.
      rewrite M, (gvrToFind_split mapUnicodeLower o x g E Hx Hg).
      cbn [ResourceFor fakeRESTMapperImpl Group]. split.
      * intros [->| ->]; [reflexivity|].
        rewrite String.eqb_refl. cbn. now rewrite andb_false_r.
      * intros N1 N2. apply String.eqb_neq in N1, N2. now rewrite N1, N2.
Qed.

(** ** The further theorems at the fixtures *)

Lemma Validate_accepts_iff_witness :
  Validate (testOptions 10 "" true) = Returns None.
Proof.
  apply (proj2 (Validate_accepts_iff (testOptions 10 "" true))).
  split; [reflexivity|]. right. split; [reflexivity|]. left. reflexivity.
Defined.

Lemma Validate_first_failing_check_wins_witness :
  Validate (testOptions 0 "tok1" true) = Returns (Some ErrLimit) /\
  Validate (testOptions 5 "tok1" true) = Returns (Some ErrInteractiveContinue).
Proof.
  split.
  - apply (proj2 (proj1
      (Validate_first_failing_check_wins (testOptions 0 "tok1" true)))).
    discriminate.
  - apply (proj2 (proj1 (proj2
      (Validate_first_failing_check_wins (testOptions 5 "tok1" true))))).
    split; [reflexivity|]. split; [reflexivity|discriminate].
Defined.

Lemma Validate_panics_iff_witness :
  Validate (validateCase None 10 "" true) = Panic /\
  Validate (validateCase None 10 "" false) <> Panic.
Proof.
  split.
  - apply (proj2 (proj1 (Validate_panics_iff (validateCase None 10 "" true)))).
    repeat split.
  - apply (proj1 (proj2
      (Validate_panics_iff (validateCase None 10 "" false)))).
    reflexivity.
Defined.

Lemma NewRestClient_overwrites_base_witness :
  let custom :=
    mkConfig "" (Some (mkGV "batch" "v1")) "/custom" "text/plain" None in
  tableConfig baseConfig (mkGV "" "v1") = tableConfig custom (mkGV "" "v1") /\
  NewRestClient (fakeWorld threePages []) baseConfig (mkGV "" "v1") =
    NewRestClient (fakeWorld threePages []) custom (mkGV "" "v1").
Proof.
  exact (proj2 (proj2
    (NewRestClient_overwrites_base (fakeWorld threePages []) baseConfig
       (mkConfig "" (Some (mkGV "batch" "v1")) "/custom" "text/plain" None)
       (mkGV "" "v1"))) eq_refl).
Defined.

Lemma GetResourceGVR_ignores_ascii_case_witness :
  let o := resolveCase "Deployments.Apps" fakeRESTMapper in
  gvrToFind noUnicode (setResource "deployments.apps" o) = gvrToFind noUnicode o.
Proof.
  exact (proj1 (proj2
    (GetResourceGVR_ignores_ascii_case noUnicode
       (resolveCase "Deployments.Apps" fakeRESTMapper) eq_refl))).
Defined.

Lemma gvrToFind_shape_witness :
  strings.Count
    (Resource (gvrToFind noUnicode (resolveCase "deployments.apps" fakeRESTMapper)))
    dot = 0%nat.
Proof.
  apply (proj1 (proj2 (proj2
    (gvrToFind_shape noUnicode (resolveCase "deployments.apps" fakeRESTMapper))))).
  discriminate.
Defined.

Lemma Run_stops_before_any_request_witness :
  let o := resolveCase "nonexistent"
             (fakeRESTMapperImpl emptyGVR (Some (External "not found"))) in
  Run noUnicode (fakeWorld threePages []) 3 (initialState o) =
    (Returns (Some (Errorf "the server doesn't have a resource type %q"
                      ["nonexistent"])), initialState o).
Proof.
  exact (proj1
    (Run_stops_before_any_request noUnicode (fakeWorld threePages []) 3
       (initialState
          (resolveCase "nonexistent"
             (fakeRESTMapperImpl emptyGVR (Some (External "not found"))))))
    (fakeRESTMapperImpl emptyGVR (Some (External "not found")))
    (External "not found") eq_refl eq_refl).
Defined.

Lemma Run_reads_only_its_inputs_witness :
  let o := testOptions 1 "" false in
  let json := Some (mkPrintFlags (Some "json")) in
  exists evs r,
    Run noUnicode (fakeWorld threePages []) 3 (mkState o []) =
      (r, mkState o ([] ++ evs)) /\
    Run noUnicode (fakeWorld threePages []) 3 (mkState (setPrintFlags json o) [])
      = (r, mkState (setPrintFlags json o) ([] ++ evs)).
Proof.
  exact (proj2
    (Run_reads_only_its_inputs noUnicode (fakeWorld threePages []) 3
       (testOptions 1 "" false) [])
    (Some (mkPrintFlags (Some "json")))).
Defined.

Lemma all_namespaces_overrides_namespace_witness :
  let o := setAllNamespaces true (testOptions 1 "" false) in
  exists evs r,
    Run noUnicode (fakeWorld threePages []) 3 (mkState o []) =
      (r, mkState o ([] ++ evs)) /\
    Run noUnicode (fakeWorld threePages []) 3
        (mkState (setNamespace "kube-system" o) [])
      = (r, mkState (setNamespace "kube-system" o) ([] ++ evs)) /\
    forall c ns resource lo, In (EvGet c ns resource lo) evs -> ns = "".
Proof.
  exact (all_namespaces_overrides_namespace noUnicode
           (fakeWorld threePages []) 3
           (setAllNamespaces true (testOptions 1 "" false)) [] "kube-system"
           eq_refl).
Defined.

Lemma noninteractive_Run_is_one_shot_witness :
  let st := initialState (testOptions 1 "" false) in
  Run noUnicode (fakeWorld threePages []) 6 st =
    Run noUnicode (fakeWorld threePages []) 1 st.
Proof.
  exact (proj1
    (noninteractive_Run_is_one_shot noUnicode (fakeWorld threePages []) 5
       (initialState (testOptions 1 "" false)) eq_refl)).
Defined.

Lemma print_error_is_fatal_witness :
  let o := testOptions 1 "" true in
  loop (brokenSinkWorld threePages) 1 "default" podsGVR podsClient "" true
       (initialState o) =
    (Returns (Some (External "broken pipe")),
     mkState o [get1 o; EvPrintObj page1]).
Proof.
  exact (proj1
    (print_error_is_fatal (brokenSinkWorld threePages) 0 "default" podsGVR
       podsClient "" true (initialState (testOptions 1 "" true)) page1
       (External "broken pipe") eq_refl eq_refl eq_refl)).
Defined.

Lemma Run_ends_on_finite_input_witness :
  fst (Run noUnicode (fakeWorld threePages [inr 110%Z; inr 110%Z]) 3
         (initialState (testOptions 1 "" true))) <> OutOfFuel.
Proof.
  apply (Run_ends_on_finite_input noUnicode
           (fakeWorld threePages [inr 110%Z; inr 110%Z]) 2 2
           (initialState (testOptions 1 "" true))).
  - intros tr H. cbn [fakeWorld stdinRune]. unfold scriptedStdin.
    unfold readsOf in H.
    destruct (length (filter isReadRune tr)) as [|[|n]]; [lia|lia|].
    cbn. destruct n; discriminate.
  - cbn. lia.
Defined.

Lemma Complete_succeeds_iff_witness :
  fst (Complete (fakeWorld threePages []) "pods"
         (initialState (headOptions 10 "" false))) = Returns None.
Proof.
  apply (proj2 (Complete_succeeds_iff (fakeWorld threePages []) "pods"
                  (initialState (headOptions 10 "" false)))).
  exists fakeConfigFlags, baseConfig. repeat split.
Defined.

Lemma Complete_stops_at_first_error_witness :
  let o := NewHeadOptions brokenConfigFlags in
  let st' := snd (Complete (fakeWorld threePages []) "pods" (initialState o)) in
  fst (Complete (fakeWorld threePages []) "pods" (initialState o)) =
    Returns (Some (External "non-existent-kubeconfig-for-test")) /\
  Mapper (heapO st') = None /\
  Namespace (heapO st') = Namespace o /\
  RESTConfig (heapO st') = RESTConfig o /\
  DynamicClient (heapO st') = DynamicClient o.
Proof.
  exact (proj1
    (Complete_stops_at_first_error (fakeWorld threePages []) "pods"
       (initialState (NewHeadOptions brokenConfigFlags)) brokenConfigFlags
       (External "non-existent-kubeconfig-for-test") eq_refl) eq_refl).
Defined.

Lemma RunE_wants_one_argument_witness :
  let st := initialState (headOptions 10 "" false) in
  RunE noUnicode (fakeWorld threePages []) 3 ["pods"; "services"] st =
    (Returns (Some ErrTooManyArguments), st).
Proof.
  apply (RunE_wants_one_argument noUnicode (fakeWorld threePages []) 3
           ["pods"; "services"] (initialState (headOptions 10 "" false))).
  discriminate.
Defined.

Lemma RunE_rejects_before_any_request_witness :
  let st := initialState (headOptions 10 "tok1" true) in
  RunE noUnicode (fakeWorld threePages []) 3 ["pods"] st =
    (Returns (Some ErrInteractiveContinue),
     snd (Complete (fakeWorld threePages []) "pods" st)).
Proof.
  exact (proj2 (proj2
    (RunE_rejects_before_any_request noUnicode (fakeWorld threePages []) 3
       "pods" (initialState (headOptions 10 "tok1" true))
       ErrInteractiveContinue eq_refl)) eq_refl).
Defined.

Lemma RunE_never_panics_witness :
  fst (RunE noUnicode (fakeWorld threePages [inr 110%Z]) 3 ["pods"]
         (initialState (headOptions 10 "" true))) <> Panic.
Proof.
  apply (RunE_never_panics noUnicode (fakeWorld threePages [inr 110%Z]) 3
           ["pods"] (initialState (headOptions 10 "" true)) fakeConfigFlags
           eq_refl).
  - split; intros _; discriminate.
  - intros _. discriminate.
Defined.

Lemma fake_mapper_checks_group_only_witness :
  GetResourceGVR noUnicode (resolveCase "pods.apps" fakeRESTMapper) =
    Returns (emptyGVR,
             Some (Errorf "the server doesn't have a resource type %q"
                     ["pods.apps"])).
Proof.
  apply (proj2 (proj2
    (fake_mapper_checks_group_only noUnicode podsGVR
       (resolveCase "pods.apps" fakeRESTMapper)) eq_refl)
    "pods" "apps" eq_refl eq_refl eq_refl); discriminate.
Defined.

Lemma Run_requests_follow_reads_witness :
  let st := initialState (testOptions 1 "" true) in
  let w := fakeWorld threePages [inr 110%Z; inr 113%Z] in
  exists evs r,
    Run noUnicode w 3 st = (r, after st evs) /\
    (length (requestsOf evs) <= S (readsOf evs))%nat /\
    (readsOf evs <= length (printedOf evs))%nat /\
    (length (printedOf evs) <= length (requestsOf evs))%nat.
Proof.
  exact (Run_requests_follow_reads noUnicode
           (fakeWorld threePages [inr 110%Z; inr 113%Z]) 3
           (initialState (testOptions 1 "" true))).
Defined.

Lemma Run_chains_tokens_witness :
  let st := initialState (testOptions 1 "" true) in
  let w := fakeWorld threePages [inr 110%Z; inr 110%Z] in
  exists evs r,
    Run noUnicode w 3 st = (r, after st evs) /\
    chained "" evs /\
    match requestsOf evs with
    | [] => True
    | lo :: rest =>
        loContinue lo = "" /\ Forall (fun lo' => loContinue lo' <> "") rest
    end.
Proof.
  exact (Run_chains_tokens noUnicode
           (fakeWorld threePages [inr 110%Z; inr 110%Z]) 3
           (initialState (testOptions 1 "" true))).
Defined.

Lemma Run_requests_use_resolved_resource_witness :
  let st := initialState (testOptions 1 "" false) in
  exists evs r,
    Run noUnicode (fakeWorld threePages []) 3 st = (r, after st evs) /\
    forall c ns resource lo, In (EvGet c ns resource lo) evs ->
      exists gvr config,
        GetResourceGVR noUnicode (heapO st) = Returns (gvr, None) /\
        RESTConfig (heapO st) = Some config /\
        resource = Resource gvr /\
        clientConfig c = tableConfig config (GroupVersionOf gvr) /\
        AcceptContentTypes (clientConfig c) = TableAccept /\
        APIPath (clientConfig c) = (if Group gvr =? "" then "/api" else "/apis").
Proof.
  exact (Run_requests_use_resolved_resource noUnicode
           (fakeWorld threePages []) 3 (initialState (testOptions 1 "" false))).
Defined.

Lemma Complete_leaves_flags_alone_witness :
  let st := initialState (headOptions 7 "tok1" false) in
  let st' := snd (Complete (fakeWorld threePages []) "pods" st) in
  trace st' = [] /\ oResource (heapO st') = "pods" /\
  Limit (heapO st') = 7%Z /\ ContinueToken (heapO st') = "tok1" /\
  Interactive (heapO st') = false /\ Selector (heapO st') = "" /\
  AllNamespaces (heapO st') = false /\
  PrintFlags (heapO st') = Some (mkPrintFlags (Some "")) /\
  ConfigFlags (heapO st') = Some fakeConfigFlags /\
  Validate (heapO st') = Validate (heapO st).
Proof.
  exact (Complete_leaves_flags_alone (fakeWorld threePages []) "pods"
           (initialState (headOptions 7 "tok1" false))).
Defined.

Lemma RunE_requests_are_validated_witness :
  let st := initialState (headOptions 10 "" true) in
  let w := fakeWorld threePages [inr 110%Z; inr 113%Z] in
  exists evs,
    trace (snd (RunE noUnicode w 3 ["pods"] st)) = [] ++ evs /\
    (evs <> [] -> Validate (heapO st) = Returns None) /\
    Forall (fun lo => (0 < loLimit lo)%Z /\ loLimit lo = 10%Z /\
                      loLabelSelector lo = "")
      (requestsOf evs) /\
    (Interactive (heapO st) = true ->
     forall lo rest, requestsOf evs = lo :: rest -> loContinue lo = "").
Proof.
  exact (RunE_requests_are_validated noUnicode
           (fakeWorld threePages [inr 110%Z; inr 113%Z]) 3 ["pods"]
           (initialState (headOptions 10 "" true))).
Defined.

(** The command end to end: two pages stepped through, then [q]. *)
Example RunE_session :
  let r := RunE noUnicode (fakeWorld threePages [inr 110%Z; inr 113%Z]) 3
             ["Pods"] (initialState (headOptions 1 "" true)) in
  fst r = Returns None /\
  oResource (heapO (snd r)) = "Pods" /\
  Namespace (heapO (snd r)) = "default" /\
  requestsOf (trace (snd r)) =
    [mkListOptions 1 "" ""; mkListOptions 1 "tok1" ""] /\
  printedOf (trace (snd r)) = [page1; page2] /\
  readsOf (trace (snd r)) = 2%nat.
Proof. repeat split. Qed.
